(** * Clac-Ironpython: the MVVM binding framework and the calculator view model

    A shallow embedding of [mvvm.py] and [Clac_Ironpython.py].

    - [Py]         Python values, exceptions and results shared by all modules.
    - [Messenger]  [WeakCallable] and [_Messenger]: subscribe, unsubscribe,
                   send, the timer tick [_execute] and the weak-reference
                   callback [_on_collect].
    - [ViewModel]  [Notifiable], [ViewModel], [Command], [command], [List].
    - [Builtins]   the Python 2.7 builtins the calculator calls: [float],
                   [str] of a float, [Decimal] and [Fraction].
    - [Calc]       [MyViewModel] of the calculator.
    - [Session]    a few subscribers and messages, to run the theorems on.

    Objects are referred to by their identity (a [ref]); a Python object that
    is mutated in place lives in the state that the operations thread through.
    The lock of the messenger is not modelled: every operation below runs to
    completion before the next one starts, which is what the lock enforces. *)

From Stdlib Require Import Ascii String ZArith QArith.
From stdpp Require Import gmap strings list.

Open Scope Z_scope.
Open Scope nat_scope.

(* ===================================================================== *)
(** * Python values, exceptions, results                                  *)
(* ===================================================================== *)

Module Py.

(** Identity of a Python object. *)
Definition ref := nat.

(** The exceptions that the two source files raise or let through. *)
Inductive exn :=
| ReferenceError               (* weakref.ReferenceError *)
| ValueError
| AttributeError
| KeyError
| TypeError
| ZeroDivisionError
| OverflowError
| InvalidOperation             (* decimal.InvalidOperation *)
| Full                         (* Queue.Full *)
| Exception_ (name : string).  (* any other exception class *)

Inductive result (A : Type) :=
| Return (a : A)
| Raise (e : exn).
Arguments Return {A} a.
Arguments Raise {A} e.

Definition is_ReferenceError (e : exn) : bool :=
  match e with ReferenceError => true | _ => false end.

(** The values that a property or a message argument holds. *)
Inductive value :=
| VNone
| VBool (b : bool)
| VInt (z : Z)
| VStr (s : string)
| VRef (r : ref).              (* an object compared by identity *)

#[global] Instance value_eq_dec : EqDecision value.
Proof. solve_decision. Defined.

(** [bool] is a subclass of [int]: [True == 1]. *)
Definition as_int (v : value) : option Z :=
  match v with
  | VBool b => Some (if b then 1%Z else 0%Z)
  | VInt z => Some z
  | _ => None
  end.

(** [a == b]. *)
Definition py_eq (a b : value) : bool :=
  match a, b with
  | VNone, VNone => true
  | VStr s, VStr t => String.eqb s t
  | VRef r, VRef q => Nat.eqb r q
  | _, _ =>
      match as_int a, as_int b with
      | Some x, Some y => Z.eqb x y
      | _, _ => false
      end
  end.

(** [a != b]. *)
Definition py_ne (a b : value) : bool := negb (py_eq a b).

(** [a is ''] for a string held by the view model. The empty string is one
    interned object, so the identity test is the test for emptiness. *)
Definition is_empty_str (v : value) : bool :=
  match v with VStr s => String.eqb s "" | _ => false end.

End Py.

(* ===================================================================== *)
(** * WeakCallable and _Messenger                                        *)
(* ===================================================================== *)

Module Messenger.
Import Py.

(** What [subscribe] receives: a bound method ([im_func], [im_self]) or a
    plain function. *)
Inductive callable :=
| Method (im_func im_self : ref)
| Function (f : ref).

(** A [WeakCallable]. [wc_id] is the identity of the wrapper object itself:
    the class defines neither [__eq__] nor [__cmp__], so [==] on two
    wrappers is identity. [_func] and [_obj] are weak references, given by
    the identity of their referent; [_ext_on_collect] tells whether the
    messenger's [_on_collect] was passed as [on_collect]. *)
Record WeakCallable := {
  wc_id : nat;
  _ext_on_collect : bool;
  _func : ref;
  _obj : option ref
}.

(** [WeakCallable.__init__], for the wrapper allocated at identity [id]. *)
Definition WeakCallable_init (id : nat) (func : callable) (on_collect : bool)
  : WeakCallable :=
  match func with
  | Method f o =>
      {| wc_id := id; _ext_on_collect := on_collect; _func := f; _obj := Some o |}
  | Function f =>
      {| wc_id := id; _ext_on_collect := on_collect; _func := f; _obj := None |}
  end.

(** The callable a wrapper was made from. *)
Definition target (wc : WeakCallable) : callable :=
  match _obj wc with
  | Some o => Method (_func wc) o
  | None => Function (_func wc)
  end.

(** The referent whose weak reference carries the [_on_collect] callback:
    [im_self] for a method, the function itself otherwise. *)
Definition watched (wc : WeakCallable) : ref :=
  match _obj wc with
  | Some o => o
  | None => _func wc
  end.

(** [x == y] on wrappers. *)
Definition wc_eq (x y : WeakCallable) : bool := Nat.eqb (wc_id x) (wc_id y).

Definition topic := nat.
Definition kwargs := list (string * value).

(** A queued message [(message, args, kwargs)]. *)
Record message := {
  msg_topic : topic;
  msg_args : list value;
  msg_kwargs : kwargs
}.

(** An invocation of a handler's function: for a method the receiver is the
    first positional argument. *)
Record event := Invoked {
  ev_func : ref;
  ev_args : list value;
  ev_kwargs : kwargs
}.

#[global] Instance event_eq_dec : EqDecision event.
Proof. solve_decision. Defined.

(** The invocation that a call of [handler] with these arguments is. *)
Definition invocation (handler : callable) (args : list value) (kw : kwargs)
  : event :=
  match handler with
  | Method f o => Invoked f (VRef o :: args) kw
  | Function f => Invoked f args kw
  end.

(** The objects a callable needs alive: the function, and for a method the
    receiver. *)
Definition referents (handler : callable) : list ref :=
  match handler with
  | Method f o => [f; o]
  | Function f => [f]
  end.

(** The messenger with the part of the runtime it depends on: the objects
    already garbage collected and the identity of the next wrapper. *)
Record World := {
  _subscribers : gmap topic (list WeakCallable);
  _messages : list message;
  collected : gset ref;
  next_id : nat
}.

(** Every stored wrapper was allocated before the next one will be. *)
Definition allocated (w : World) : Prop :=
  map_Forall (fun _ l => Forall (fun wc => wc_id wc < next_id w) l)
             (_subscribers w).

(** [_Messenger.__init__]. *)
Definition init : World :=
  {| _subscribers := ∅; _messages := []; collected := ∅; next_id := 0 |}.

(** [d[k]] on a [defaultdict(list)]: a missing key is inserted with []. *)
Definition getitem (d : gmap topic (list WeakCallable)) (k : topic)
  : list WeakCallable * gmap topic (list WeakCallable) :=
  match d !! k with
  | Some l => (l, d)
  | None => ([], <[k := []]> d)
  end.

(** The subscriber list of a topic, as a read without side effect. *)
Definition subscribers_of (w : World) (k : topic) : list WeakCallable :=
  default [] (_subscribers w !! k).

(** [x in l] and [l.remove(x)] on a list of wrappers; [None] is the
    [ValueError] of [list.remove]. *)
Definition wc_in (x : WeakCallable) (l : list WeakCallable) : bool :=
  existsb (fun y => wc_eq y x) l.

Fixpoint list_remove (x : WeakCallable) (l : list WeakCallable)
  : option (list WeakCallable) :=
  match l with
  | [] => None
  | y :: l' =>
      if wc_eq y x then Some l'
      else match list_remove x l' with
           | Some r => Some (y :: r)
           | None => None
           end
  end.

(** [Queue()] is built without a bound: [maxsize] is 0. *)
Definition maxsize : nat := 0.

(** [Queue.put(item, False)]: a queue with a positive [maxsize] that is full
    raises [Full]. *)
Definition put (item : message) (q : list message) : result (list message) :=
  if (0 <? maxsize) && (length q =? maxsize) then Raise Full
  else Return (q ++ [item]).

(** [send]. *)
Definition send (m : topic) (args : list value) (kw : kwargs) (w : World)
  : result unit * World :=
  match put {| msg_topic := m; msg_args := args; msg_kwargs := kw |} (_messages w) with
  | Return q =>
      (Return tt,
       {| _subscribers := _subscribers w; _messages := q;
          collected := collected w; next_id := next_id w |})
  | Raise e => (Raise e, w)
  end.

(** [subscribe]. *)
Definition subscribe (m : topic) (handler : callable) (w : World) : World :=
  let ref := WeakCallable_init (next_id w) handler true in
  let '(l, d) := getitem (_subscribers w) m in
  {| _subscribers := <[m := l ++ [ref]]> d;
     _messages := _messages w;
     collected := collected w;
     next_id := S (next_id w) |}.

(** [unsubscribe]: the list is looked up first, then the fresh wrapper is
    built, then [remove] runs. *)
Definition unsubscribe (m : topic) (handler : callable) (w : World)
  : result unit * World :=
  let '(l, d) := getitem (_subscribers w) m in
  let fresh := WeakCallable_init (next_id w) handler false in
  match list_remove fresh l with
  | Some l' =>
      (Return tt,
       {| _subscribers := <[m := l']> d; _messages := _messages w;
          collected := collected w; next_id := S (next_id w) |})
  | None =>
      (Raise ValueError,
       {| _subscribers := d; _messages := _messages w;
          collected := collected w; next_id := S (next_id w) |})
  end.

(** [_on_collect]. *)
Definition _on_collect (ref : WeakCallable) (w : World) : World :=
  {| _subscribers :=
       (fun l => if wc_in ref l then default l (list_remove ref l) else l)
         <$> _subscribers w;
     _messages := _messages w;
     collected := collected w;
     next_id := next_id w |}.

(** The garbage collector reclaims object [o]: every stored wrapper whose
    callback-carrying weak reference points to [o] has its callback run. *)
Definition dying (o : ref) (w : World) : list WeakCallable :=
  filter (fun wc => _ext_on_collect wc = true ∧ watched wc = o)
         (concat (snd <$> map_to_list (_subscribers w))).

Definition gc_collect (o : ref) (w : World) : World :=
  foldr _on_collect
        {| _subscribers := _subscribers w; _messages := _messages w;
           collected := {[o]} ∪ collected w; next_id := next_id w |}
        (dying o w).

Section Dispatch.

(** What a handler's function does when it is called with these
    arguments: it returns or it raises. Handlers are leaves: they do not
    call back into the messenger. *)
Variable run : ref -> list value -> kwargs -> result unit.

(** Dereferencing a weak reference. *)
Definition deref (dead : gset ref) (r : ref) : option ref :=
  if decide (r ∈ dead) then None else Some r.

(** [WeakCallable.__call__]. *)
Definition WeakCallable_call (dead : gset ref) (wc : WeakCallable)
           (args : list value) (kw : kwargs) : result unit * list event :=
  match _obj wc with
  | Some o =>
      match deref dead (_func wc), deref dead o with
      | Some cl, Some obj =>
          (run cl (VRef obj :: args) kw, [Invoked cl (VRef obj :: args) kw])
      | _, _ => (Raise ReferenceError, [])
      end
  | None =>
      match deref dead (_func wc) with
      | Some cl => (run cl args kw, [Invoked cl args kw])
      | None => (Raise ReferenceError, [])
      end
  end.

(** The [for subscriber in ...] loop of [_execute] with its [try]. *)
Fixpoint dispatch (dead : gset ref) (subs : list WeakCallable)
         (args : list value) (kw : kwargs) : result unit * list event :=
  match subs with
  | [] => (Return tt, [])
  | subscriber :: rest =>
      let '(r, ev) := WeakCallable_call dead subscriber args kw in
      match r with
      | Return _ =>
          let '(r', ev') := dispatch dead rest args kw in (r', ev ++ ev')
      | Raise e =>
          if is_ReferenceError e
          then let '(r', ev') := dispatch dead rest args kw in (r', ev ++ ev')
          else (Raise e, ev)
      end
  end.

(** A subscriber that lets the loop go on: its call returns, or raises the
    [ReferenceError] that the loop silences. *)
Definition passes (dead : gset ref) (args : list value) (kw : kwargs)
           (wc : WeakCallable) : bool :=
  match fst (WeakCallable_call dead wc args kw) with
  | Return _ => true
  | Raise e => is_ReferenceError e
  end.

(** The [while not self._messages.empty()] loop of [_execute]. *)
Fixpoint drain (dead : gset ref) (d : gmap topic (list WeakCallable))
         (q : list message)
  : result unit * gmap topic (list WeakCallable) * list message * list event :=
  match q with
  | [] => (Return tt, d, [], [])
  | msg :: q' =>
      let '(l, d') := getitem d (msg_topic msg) in
      let '(r, ev) := dispatch dead l (msg_args msg) (msg_kwargs msg) in
      match r with
      | Return _ =>
          let '(r', d'', q'', ev') := drain dead d' q' in
          (r', d'', q'', ev ++ ev')
      | Raise e => (Raise e, d', q', ev)
      end
  end.

(** [_execute]: the result of the tick, the world after it and the
    handler invocations it made, in order. *)
Definition _execute (w : World) : result unit * World * list event :=
  let '(r, d, q, ev) := drain (collected w) (_subscribers w) (_messages w) in
  (r,
   {| _subscribers := d; _messages := q;
      collected := collected w; next_id := next_id w |},
   ev).

(** One operation of the messenger or of the collector. *)
Inductive step : World -> World -> Prop :=
| step_subscribe m h w : step w (subscribe m h w)
| step_unsubscribe m h w : step w (snd (unsubscribe m h w))
| step_send m a k w : step w (snd (send m a k w))
| step_execute w : step w (snd (fst (_execute w)))
| step_collect o w : step w (gc_collect o w).

(** The worlds a fresh messenger can get into. *)
Inductive reachable : World -> Prop :=
| reachable_init : reachable init
| reachable_step w w' : reachable w -> step w w' -> reachable w'.

End Dispatch.

End Messenger.


(* ===================================================================== *)
(** * Notifiable, ViewModel, Command, command, List                       *)
(* ===================================================================== *)

Module ViewModel.
Import Py.

(** ** Notifiable and ViewModel *)

(** The descriptor [Notifiable(initial, name)]; [name] is [None] until the
    metaclass or the caller sets it. *)
Record Notifiable := {
  name : option string;
  initial : value
}.

(** ['__notifiable_%s' % self.name]. *)
Definition slot (d : Notifiable) : string :=
  "__notifiable_" +:+ match name d with Some n => n | None => "None" end.

(** An instance of a [ViewModel] subclass: its attribute dictionary and the
    list made by [__init__]. Handlers are held by identity. *)
Record Instance := {
  attrs : gmap string value;
  property_chaged_handlers : list ref
}.

(** What is observed of a property write. *)
Inductive event :=
| RaisePropertyChanged_called (property_name : option string)
| handler_called (handler : ref) (property_name : option string).

(** The names [RaisePropertyChanged] was called with, in order. *)
Definition raised (evs : list event) : list (option string) :=
  omap (fun e => match e with
                 | RaisePropertyChanged_called n => Some n
                 | handler_called _ _ => None
                 end) evs.

(** The methods and special attributes of a Python 2.7 [list]. *)
Definition list_attributes : list string :=
  [ "__add__"; "__class__"; "__contains__"; "__delattr__"; "__delitem__";
    "__delslice__"; "__doc__"; "__eq__"; "__format__"; "__ge__";
    "__getattribute__"; "__getitem__"; "__getslice__"; "__gt__"; "__hash__";
    "__iadd__"; "__imul__"; "__init__"; "__iter__"; "__le__"; "__len__";
    "__lt__"; "__mul__"; "__ne__"; "__new__"; "__reduce__"; "__reduce_ex__";
    "__repr__"; "__reversed__"; "__rmul__"; "__setattr__"; "__setitem__";
    "__setslice__"; "__sizeof__"; "__str__"; "__subclasshook__";
    "append"; "count"; "extend"; "index"; "insert"; "pop"; "remove";
    "reverse"; "sort" ]%string.

(** [l.remove(x)] on a list of handlers: the first occurrence goes. *)
Fixpoint remove_first (x : ref) (l : list ref) : option (list ref) :=
  match l with
  | [] => None
  | y :: l' =>
      if Nat.eqb y x then Some l'
      else match remove_first x l' with
           | Some r => Some (y :: r)
           | None => None
           end
  end.

(** The statement [l.attr(x)] for a list [l] of handlers. The attribute is
    looked up first, and a name that [list] does not have is an
    [AttributeError]. Of the attributes that exist, [append] and [remove]
    are the ones the source calls; the call of another one with a single
    handler as argument is reported as a [TypeError] and changes nothing. *)
Definition list_call (attr : string) (x : ref) (l : list ref)
  : result unit * list ref :=
  if bool_decide (attr ∈ list_attributes) then
    if String.eqb attr "append" then (Return tt, l ++ [x])
    else if String.eqb attr "remove" then
      match remove_first x l with
      | Some l' => (Return tt, l')
      | None => (Raise ValueError, l)
      end
    else (Raise TypeError, l)
  else (Raise AttributeError, l).

(** [ViewModel.__init__] (the messenger singleton is in [Messenger]). *)
Definition ViewModel_init : Instance :=
  {| attrs := ∅; property_chaged_handlers := [] |}.

(** [add_PropertyChanged]. *)
Definition add_PropertyChanged (handler : ref) (self : Instance)
  : result unit * Instance :=
  let '(r, l) := list_call "append" handler (property_chaged_handlers self) in
  (r, {| attrs := attrs self; property_chaged_handlers := l |}).


Section Notify.

(** What a property-changed handler does when it is called for a property
    name: it returns or it raises. *)
Variable handle : ref -> option string -> result unit.

(** The loop of [RaisePropertyChanged]. *)
Fixpoint call_handlers (handlers : list ref) (property_name : option string)
  : result unit * list event :=
  match handlers with
  | [] => (Return tt, [])
  | handler :: rest =>
      match handle handler property_name with
      | Return _ =>
          let '(r, ev) := call_handlers rest property_name in
          (r, handler_called handler property_name :: ev)
      | Raise e => (Raise e, [handler_called handler property_name])
      end
  end.

(** [RaisePropertyChanged]. *)
Definition RaisePropertyChanged (self : Instance) (property_name : option string)
  : result unit * list event :=
  let '(r, ev) := call_handlers (property_chaged_handlers self) property_name in
  (r, RaisePropertyChanged_called property_name :: ev).

(** [Notifiable.__get__] on an instance. *)
Definition Notifiable_get (d : Notifiable) (obj : Instance) : value :=
  default (initial d) (attrs obj !! slot d).

(** [Notifiable.__set__]. *)
Definition Notifiable_set (d : Notifiable) (obj : Instance) (v : value)
  : result unit * Instance * list event :=
  let current := default (initial d) (attrs obj !! slot d) in
  if py_ne current v then
    let obj' := {| attrs := <[slot d := v]> (attrs obj);
                   property_chaged_handlers := property_chaged_handlers obj |} in
    let '(r, ev) := RaisePropertyChanged obj' (name d) in
    (r, obj', ev)
  else (Return tt, obj, []).

(** [Notifiable.__delete__]. *)
Definition Notifiable_delete (d : Notifiable) (obj : Instance) : Instance :=
  {| attrs := delete (slot d) (attrs obj);
     property_chaged_handlers := property_chaged_handlers obj |}.

End Notify.

(** ** Command and command *)

(** [functools.partial(func, obj)]: [obj] is [None] when the descriptor is
    read through the class. *)
Record partial := {
  p_func : ref;
  p_arg : option ref
}.

(** A [Command] object. *)
Record Command := {
  execute : partial;
  can_execute : option partial;
  _can_execute_changed_handlers : list ref
}.

(** [Command.__init__]. *)
Definition Command_init (execute : partial) (can_execute : option partial)
  : Command :=
  {| execute := execute; can_execute := can_execute;
     _can_execute_changed_handlers := [] |}.

(** The [command] descriptor. [_command] refers to a [Command] of the
    store by its identity. *)
Record command := {
  _handler : option ref;
  _can_execute : option ref;
  _command : option ref
}.

(** [command.__init__]. *)
Definition command_init (handler : option ref) (can_execute : option ref)
  : command :=
  {| _handler := handler; _can_execute := can_execute; _command := None |}.

(** The [Command] objects allocated so far. *)
Record Store := {
  commands : gmap ref Command;
  next_ref : ref
}.

Definition empty_store : Store := {| commands := ∅; next_ref := 0 |}.

(** [command.__get__(obj, objtype)]: the command returned (by identity), the
    descriptor and the store afterwards. *)
Definition command_get (obj : option ref) (self : command) (st : Store)
  : result ref * command * Store :=
  match _handler self with
  | None => (Raise AttributeError, self, st)
  | Some handler =>
      match _command self with
      | Some c => (Return c, self, st)
      | None =>
          let c := next_ref st in
          let cmd :=
            Command_init
              {| p_func := handler; p_arg := obj |}
              (match _can_execute self with
               | Some ce => Some {| p_func := ce; p_arg := obj |}
               | None => None
               end) in
          (Return c,
           {| _handler := _handler self; _can_execute := _can_execute self;
              _command := Some c |},
           {| commands := <[c := cmd]> (commands st); next_ref := S c |})
      end
  end.

(** The instance a command of the store runs its handler on. *)
Definition bound_to (st : Store) (c : ref) : option (option ref) :=
  p_arg <$> (execute <$> commands st !! c).

(** [Command.add_CanExecuteChanged] and [Command.remove_CanExecuteChanged]. *)
Definition add_CanExecuteChanged (handler : ref) (self : Command)
  : result unit * Command :=
  let '(r, l) := list_call "append" handler (_can_execute_changed_handlers self) in
  (r, {| execute := execute self; can_execute := can_execute self;
         _can_execute_changed_handlers := l |}).

Definition remove_CanExecuteChanged (handler : ref) (self : Command)
  : result unit * Command :=
  let '(r, l) := list_call "remove" handler (_can_execute_changed_handlers self) in
  (r, {| execute := execute self; can_execute := can_execute self;
         _can_execute_changed_handlers := l |}).

(** ** List *)

(** [List], an [ObservableCollection[object]], by its items. *)
Definition List := list value.

(** [ObservableCollection.Add]: returns nothing. *)
Definition Add (item : value) (self : List) : value * List :=
  (VNone, self ++ [item]).

(** [List.extend]: the body of the loop returns in its first iteration. *)
Definition extend (seq : list value) (self : List) : value * List :=
  match seq with
  | item :: _ => Add item self
  | [] => (VNone, self)
  end.

End ViewModel.


(* ===================================================================== *)
(** * The builtins of Python 2.7 that the calculator calls                *)
(* ===================================================================== *)

(** [float(str)], [float(Fraction)], [str(float)], [Decimal(str)] and
    [Fraction(Decimal)]. A float is kept as the exact dyadic rational it
    denotes, so that parsing, rounding (to nearest, ties to even, on 53 bits)
    and printing (12 significant digits) are all integer arithmetic. *)

Module Builtins.
Import Py.
Local Open Scope char_scope.
Local Open Scope Z_scope.

(** ** Reading numerals *)

(** [str.isspace] on one character. *)
Definition is_space (c : ascii) : bool :=
  let n := Z.of_nat (nat_of_ascii c) in
  (n =? 32) || ((9 <=? n) && (n <=? 13)).

Definition digit_of (c : ascii) : option Z :=
  let n := Z.of_nat (nat_of_ascii c) in
  if (48 <=? n) && (n <=? 57) then Some (n - 48) else None.

Definition lower (c : ascii) : ascii :=
  let n := nat_of_ascii c in
  if ((65 <=? n) && (n <=? 90))%nat then ascii_of_nat (n + 32) else c.

Fixpoint lstrip (s : list ascii) : list ascii :=
  match s with
  | c :: s' => if is_space c then lstrip s' else s
  | [] => []
  end.

Definition strip (s : list ascii) : list ascii :=
  rev (lstrip (rev (lstrip s))).

(** A numeral as [float] and [Decimal] read it. A finite one stands for
    [(-1)^neg * coeff * 10^exp]. *)
Inductive numeral :=
| Finite (neg : bool) (coeff : Z) (exp : Z)
| Infinity (neg : bool)
| NaN.

(** A run of digits: its value on top of [acc], its length on top of [n],
    and what follows. *)
Fixpoint read_digits (acc n : Z) (s : list ascii) : Z * Z * list ascii :=
  match s with
  | c :: s' =>
      match digit_of c with
      | Some d => read_digits (10 * acc + d) (n + 1) s'
      | None => (acc, n, s)
      end
  | [] => (acc, n, [])
  end.

Definition read_sign (s : list ascii) : bool * list ascii :=
  match s with
  | "-" :: s' => (true, s')
  | "+" :: s' => (false, s')
  | _ => (false, s)
  end.

(** An exponent part [e[+-]digits]; without digits there is none. *)
Definition read_exponent (s : list ascii) : Z * list ascii :=
  match s with
  | c :: s1 =>
      if Ascii.eqb (lower c) "e" then
        let '(neg, s2) := read_sign s1 in
        let '(e, n, s3) := read_digits 0 0 s2 in
        if n =? 0 then (0, s) else (if neg then - e else e, s3)
      else (0, s)
  | [] => (0, [])
  end.

(** [digits[.digits][exponent]] with at least one digit: the coefficient,
    the exponent and what follows. *)
Definition read_number (s : list ascii) : option (Z * Z * list ascii) :=
  let '(i, ni, s1) := read_digits 0 0 s in
  let '(c, nf, s2) :=
    match s1 with
    | "." :: s1' => read_digits i 0 s1'
    | _ => (i, 0, s1)
    end in
  if ni + nf =? 0 then None
  else let '(e, s3) := read_exponent s2 in Some (c, e - nf, s3).

(** [kw] at the head of [s], letter case ignored. *)
Fixpoint read_keyword (kw s : list ascii) : option (list ascii) :=
  match kw, s with
  | [], _ => Some s
  | k :: kw', c :: s' => if Ascii.eqb (lower c) k then read_keyword kw' s' else None
  | _ :: _, [] => None
  end.

(** [inf], [infinity] or [nan] after the sign. *)
Definition read_inf_nan (neg : bool) (s : list ascii) : option (numeral * list ascii) :=
  match read_keyword ["i"; "n"; "f"] s with
  | Some s1 =>
      match read_keyword ["i"; "n"; "i"; "t"; "y"] s1 with
      | Some s2 => Some (Infinity neg, s2)
      | None => Some (Infinity neg, s1)
      end
  | None =>
      match read_keyword ["n"; "a"; "n"] s with
      | Some s1 => Some (NaN, s1)
      | None => None
      end
  end.

(** The numeral at the head of [s], as [strtod] finds it. *)
Definition read_float (s : list ascii) : option (numeral * list ascii) :=
  let '(neg, s1) := read_sign s in
  match read_number s1 with
  | Some (c, e, s2) => Some (Finite neg c e, s2)
  | None => read_inf_nan neg s1
  end.

(** The numeral at the head of [s], by the pattern of [decimal]: a NaN may
    be signalling and may carry digits. *)
Definition read_decimal (s : list ascii) : option (numeral * list ascii) :=
  let '(neg, s1) := read_sign s in
  match read_number s1 with
  | Some (c, e, s2) => Some (Finite neg c e, s2)
  | None =>
      match read_keyword ["i"; "n"; "f"] s1 with
      | Some _ => read_inf_nan neg s1
      | None =>
          let s2 := default s1 (read_keyword ["s"] s1) in
          match read_keyword ["n"; "a"; "n"] s2 with
          | Some s3 => let '(_, _, s4) := read_digits 0 0 s3 in Some (NaN, s4)
          | None => None
          end
      end
  end.

(** ** Floats *)

(** A binary64 float; a finite one is [(-1)^neg * m * 2^e]. *)
Inductive pyfloat :=
| FNan
| FInf (neg : bool)
| FFin (neg : bool) (m : Z) (e : Z).

(** [n / d] to the nearest integer, ties to even ([0 <= n], [0 < d]). *)
Definition round_half_even (n d : Z) : Z :=
  let q := n / d in
  let r := n mod d in
  if 2 * r <? d then q
  else if d <? 2 * r then q + 1
  else if Z.even q then q else q + 1.

(** [2^l <= n / d]. *)
Definition ge_pow2 (n d l : Z) : bool :=
  if 0 <=? l then d * 2 ^ l <=? n else d <=? n * 2 ^ (- l).

(** [n / d] rounded to binary64 ([0 <= n], [0 < d]): mantissa and exponent,
    or [None] when the result is beyond the largest float. *)
Definition to_binary64 (n d : Z) : option (Z * Z) :=
  if n =? 0 then Some (0, 0)
  else
    let l := Z.log2 n - Z.log2 d in
    let e2 := if ge_pow2 n d l then l else l - 1 in
    let sh := Z.max e2 (-1022) - 52 in
    let m := if 0 <=? sh then round_half_even n (d * 2 ^ sh)
             else round_half_even (n * 2 ^ (- sh)) d in
    if (971 <? sh) || ((sh =? 971) && (m =? 2 ^ 53)) then None
    else Some (m, sh).

(** The float of a numeral: too large a magnitude reads as infinity. *)
Definition float_of_numeral (x : numeral) : pyfloat :=
  match x with
  | NaN => FNan
  | Infinity neg => FInf neg
  | Finite neg c e =>
      match (if 0 <=? e then to_binary64 (c * 10 ^ e) 1
             else to_binary64 c (10 ^ (- e))) with
      | Some (m, e2) => FFin neg m e2
      | None => FInf neg
      end
  end.

(** [float(s)] for a string [s]. *)
Definition float_of_str (s : string) : result pyfloat :=
  match read_float (lstrip (list_ascii_of_string s)) with
  | Some (x, rest) =>
      match lstrip rest with
      | [] => Return (float_of_numeral x)
      | _ :: _ => Raise ValueError
      end
  | None => Raise ValueError
  end.

(** [x == 0] for a float [x]. *)
Definition float_is_zero (x : pyfloat) : bool :=
  match x with
  | FFin _ m _ => m =? 0
  | _ => false
  end.

(** ** Decimal and Fraction *)

(** [Decimal(s)] for a string [s]. *)
Definition Decimal (s : string) : result numeral :=
  match read_decimal (strip (list_ascii_of_string s)) with
  | Some (x, []) => Return x
  | _ => Raise InvalidOperation
  end.

(** [Fraction(d)] for a [Decimal]; fractions are kept in lowest terms. *)
Definition Fraction (d : numeral) : result Q :=
  match d with
  | Finite neg c e =>
      let digits := if neg then - c else c in
      Return (Qred (if 0 <=? e then (digits * 10 ^ e) # 1
                    else digits # Z.to_pos (10 ^ (- e))))
  | _ => Raise TypeError
  end.

(** [float(q)] for a [Fraction]: the true division of two integers. *)
Definition float_of_Fraction (q : Q) : result pyfloat :=
  match to_binary64 (Z.abs (Qnum q)) (Zpos (Qden q)) with
  | Some (m, e) => Return (FFin (Qnum q <? 0) m e)
  | None => Raise OverflowError
  end.

(** ** Printing a float *)

Definition digit_char (d : Z) : ascii := ascii_of_nat (Z.to_nat (48 + d)).

Fixpoint digits_of_fuel (fuel : nat) (z : Z) (acc : list ascii) : list ascii :=
  match fuel with
  | O => acc
  | S fuel' =>
      let acc' := digit_char (z mod 10) :: acc in
      if z / 10 =? 0 then acc' else digits_of_fuel fuel' (z / 10) acc'
  end.

(** The decimal digits of [z] ([0 <= z]). *)
Definition digits_of (z : Z) : list ascii :=
  digits_of_fuel (S (Z.to_nat (Z.log2 z))) z [].

(** [10^x <= n / d], for [0 < n] and [0 < d]. *)
Definition ge_pow10 (n d x : Z) : bool :=
  if 0 <=? x then d * 10 ^ x <=? n else d <=? n * 10 ^ (- x).

(** The decimal exponent of [n / d]: the [x] with [10^x <= n/d < 10^(x+1)]. *)
Definition exponent10 (n d : Z) : Z :=
  let x := Z.of_nat (length (digits_of n)) - Z.of_nat (length (digits_of d)) in
  if ge_pow10 n d x then x else x - 1.

Fixpoint strip_zeros_rev (s : list ascii) : list ascii :=
  match s with
  | "0" :: s' => strip_zeros_rev s'
  | _ => s
  end.

(** Trailing zeros removed, but never the first digit. *)
Definition strip_trailing_zeros (s : list ascii) : list ascii :=
  match s with
  | c :: s' => c :: rev (strip_zeros_rev (rev s'))
  | [] => []
  end.

(** [n / d] ([0 < n], [0 < d]) on 12 significant digits: the digits, without
    trailing zeros, and the decimal exponent of the first one. *)
Definition shortest12 (n d : Z) : list ascii * Z :=
  let x := exponent10 n d in
  let sh := x - 11 in
  let r := if 0 <=? sh then round_half_even n (d * 10 ^ sh)
           else round_half_even (n * 10 ^ (- sh)) d in
  if r =? 10 ^ 12 then (["1"], x + 1)
  else (strip_trailing_zeros (digits_of r), x).

(** The layout of the format ['%.12g'], with [.0] added to an integer. *)
Definition layout (digits : list ascii) (x : Z) : list ascii :=
  if (x <? -4) || (12 <=? x) then
    let mant := match digits with
                | [c] => [c]
                | c :: rest => c :: "." :: rest
                | [] => []
                end in
    let ex := digits_of (Z.abs x) in
    mant ++ ["e"; if x <? 0 then "-" else "+"]
         ++ (if Z.abs x <? 10 then "0" :: ex else ex)
  else if 0 <=? x then
    let k := Z.to_nat (x + 1) in
    let int_part := take k (digits ++ replicate k "0") in
    match drop k digits with
    | [] => int_part ++ ["."; "0"]
    | frac_part => int_part ++ "." :: frac_part
    end
  else
    "0" :: "." :: replicate (Z.to_nat (- x - 1)) "0" ++ digits.

(** [str(x)] for a float [x]. *)
Definition str_of_float (x : pyfloat) : string :=
  string_of_list_ascii
    match x with
    | FNan => ["n"; "a"; "n"]
    | FInf neg => (if neg then ["-"] else []) ++ ["i"; "n"; "f"]
    | FFin neg m e =>
        (if neg then ["-"] else []) ++
        (if m =? 0 then ["0"; "."; "0"]
         else let '(digits, x) :=
                if 0 <=? e then shortest12 (m * 2 ^ e) 1
                else shortest12 m (2 ^ (- e)) in
              layout digits x)
    end.

End Builtins.


(* ===================================================================== *)
(** * The calculator view model                                           *)
(* ===================================================================== *)

Module Calc.
Import Py Builtins.

(** An instance of [MyViewModel]. [outputText] and [inputText] are the two
    [Notifiable] slots; [inputText] only ever receives strings, [outputText]
    also the integer [0]. [changed] lists the property names that
    [RaisePropertyChanged] was called with, oldest first; the handlers that
    the window registered for them are taken to return. *)
Record MyViewModel := {
  outputText : value;
  inputText : string;
  outputNumber : Q;
  prevOperator : string;
  changed : list string
}.

(** The class attributes, before any command ran. *)
Definition initial : MyViewModel :=
  {| outputText := VStr ""; inputText := ""; outputNumber := 0;
     prevOperator := "="; changed := [] |}.

(** [self.outputText = v], through [Notifiable.__set__]. *)
Definition set_outputText (v : value) (self : MyViewModel) : MyViewModel :=
  if py_ne (outputText self) v then
    {| outputText := v; inputText := inputText self;
       outputNumber := outputNumber self; prevOperator := prevOperator self;
       changed := changed self ++ ["outputText"%string] |}
  else self.

(** [self.inputText = s], through [Notifiable.__set__]. *)
Definition set_inputText (s : string) (self : MyViewModel) : MyViewModel :=
  if py_ne (VStr (inputText self)) (VStr s) then
    {| outputText := outputText self; inputText := s;
       outputNumber := outputNumber self; prevOperator := prevOperator self;
       changed := changed self ++ ["inputText"%string] |}
  else self.

Definition set_outputNumber (q : Q) (self : MyViewModel) : MyViewModel :=
  {| outputText := outputText self; inputText := inputText self;
     outputNumber := q; prevOperator := prevOperator self;
     changed := changed self |}.

Definition set_prevOperator (op : string) (self : MyViewModel) : MyViewModel :=
  {| outputText := outputText self; inputText := inputText self;
     outputNumber := outputNumber self; prevOperator := op;
     changed := changed self |}.

(** [frac = lambda a : Fraction(Decimal(a))]. *)
Definition frac (a : string) : result Q :=
  match Decimal a with
  | Return d => Fraction d
  | Raise e => Raise e
  end.

(** The arithmetic of [Fraction]; a zero divisor is a [ZeroDivisionError]. *)
Definition Fraction_div (a b : Q) : result Q :=
  if (Qnum b =? 0)%Z then Raise ZeroDivisionError else Return (Qred (a / b)).

(** The dictionary [operators]. *)
Definition operators (key : string) : option (Q -> string -> result Q) :=
  if String.eqb key "+" then
    Some (fun a b => match frac b with
                     | Return x => Return (Qred (a + x)) | Raise e => Raise e end)
  else if String.eqb key "-" then
    Some (fun a b => match frac b with
                     | Return x => Return (Qred (a - x)) | Raise e => Raise e end)
  else if String.eqb key "x" then
    Some (fun a b => match frac b with
                     | Return x => Return (Qred (a * x)) | Raise e => Raise e end)
  else if String.eqb key "/" then
    Some (fun a b => match frac b with
                     | Return x => Fraction_div a x | Raise e => Raise e end)
  else if String.eqb key "=" then
    Some (fun a b => frac b)
  else None.

(** ['C' in param]. *)
Fixpoint contains_C (param : string) : bool :=
  match param with
  | EmptyString => false
  | String c rest => Ascii.eqb c "C" || contains_C rest
  end.

(** [addDigitCommand]. *)
Definition addDigitCommand (param : string) (self : MyViewModel)
  : result unit * MyViewModel :=
  let tempText := inputText self +:+ param in
  match float_of_str tempText with
  | Return _ => (Return tt, set_inputText tempText self)
  | Raise ValueError => (Return tt, self)
  | Raise e => (Raise e, self)
  end.

(** [operatorCommand]. *)
Definition operatorCommand (param : string) (self : MyViewModel)
  : result unit * MyViewModel :=
  let self :=
    if String.eqb "AC" param then
      set_prevOperator "=" (set_outputNumber 0 (set_outputText (VStr "") self))
    else self in
  if contains_C param then (Return tt, set_inputText "" self)
  else if is_empty_str (VStr (inputText self)) then
    (Return tt, set_prevOperator param self)
  else
    let self :=
      if is_empty_str (outputText self) then set_outputText (VInt 0) self
      else self in
    let divides_by_zero :=
      if String.eqb (prevOperator self) "/" then
        match float_of_str (inputText self) with
        | Return x => Return (float_is_zero x)
        | Raise e => Raise e
        end
      else Return false in
    match divides_by_zero with
    | Raise e => (Raise e, self)
    | Return true =>
        (Return tt, set_outputText (VStr "") (set_inputText "" self))
    | Return false =>
        match operators (prevOperator self) with
        | None => (Raise KeyError, self)
        | Some op =>
            match op (outputNumber self) (inputText self) with
            | Raise e => (Raise e, self)
            | Return q =>
                let self :=
                  set_inputText "" (set_prevOperator param (set_outputNumber q self)) in
                match float_of_Fraction (outputNumber self) with
                | Raise e => (Raise e, self)
                | Return x => (Return tt, set_outputText (VStr (str_of_float x)) self)
                end
            end
        end
    end.

(** A key of the window: a digit key runs [addDigitCommand], an operator
    key [operatorCommand]. *)
Inductive key :=
| Digit (param : string)
| Operator (param : string).

Definition press (k : key) (self : MyViewModel) : result unit * MyViewModel :=
  match k with
  | Digit param => addDigitCommand param self
  | Operator param => operatorCommand param self
  end.

(** A sequence of keys; it stops at the first command that raises. *)
Fixpoint press_all (ks : list key) (self : MyViewModel)
  : result unit * MyViewModel :=
  match ks with
  | [] => (Return tt, self)
  | k :: ks' =>
      match press k self with
      | (Return _, self') => press_all ks' self'
      | (Raise e, self') => (Raise e, self')
      end
  end.

(** The keys that type 10^200: a 1 and 200 zeros. *)
Definition ten_to_the_200 : list key :=
  Digit "1" :: replicate 200 (Digit "0").

(** The keys one after the other, each command run from the state its
    predecessor left, whether that one returned or raised: the results of
    the commands and the last state. *)
Fixpoint press_each (ks : list key) (self : MyViewModel)
  : list (result unit) * MyViewModel :=
  match ks with
  | [] => ([], self)
  | k :: ks' =>
      let '(r, self') := press k self in
      let '(rs, self'') := press_each ks' self' in
      (r :: rs, self'')
  end.

End Calc.


(* ===================================================================== *)
(** * A small session with the messenger                                  *)
(* ===================================================================== *)

Module Session.
Import Py Messenger.

(** Function 1 raises an exception of its own, every other one returns. *)
Definition run (f : ref) (args : list value) (kw : kwargs) : result unit :=
  if Nat.eqb f 1 then Raise (Exception_ "boom") else Return tt.

(** Topic 0 gets the method 3 of object 4 and the function 2. *)
Definition two_subscribers : World :=
  subscribe 0 (Function 2) (subscribe 0 (Method 3 4) init).

(** Topic 0 gets the method 3 of object 4, the function 1 and the
    function 2. *)
Definition three_subscribers : World :=
  subscribe 0 (Function 2)
    (subscribe 0 (Function 1) (subscribe 0 (Method 3 4) init)).

(** The function 3 is collected, object 4 lives on; then 7 and 8 are sent
    to topic 0. *)
Definition busy (w : World) : World :=
  snd (send 0 [VInt 8] [] (snd (send 0 [VInt 7] [] (gc_collect 3 w)))).

(** Function 2 is on topic 0 and function 1, which raises, on topic 1;
    7 is sent to topic 0, 8 to topic 1 and 9 to topic 0. *)
Definition mixed : World :=
  snd (send 0 [VInt 9] []
         (snd (send 1 [VInt 8] []
                 (snd (send 0 [VInt 7] []
                         (subscribe 1 (Function 1) (subscribe 0 (Function 2) init))))))).

End Session.

(* ===================================================================== *)
(** * Signal and ViewModelMeta                                            *)
(* ===================================================================== *)

Module Signal.
Import Py Messenger ViewModel.

(** A [Signal]. The object itself is the key under which the messenger
    keeps its subscribers, so its identity is its topic. [sig_name] is the
    attribute [name], which [__init__] does not set: [None] here means that
    the object has no such attribute. *)
Record Signal := {
  sig_id : topic;
  sig_name : option string
}.

(** [Signal.__init__(name)] for the signal allocated at identity [id]: the
    argument is not used. *)
Definition Signal_init (id : topic) (name : option string) : Signal :=
  {| sig_id := id; sig_name := None |}.

(** [connect], [disconnect], [emit]: all signals talk to the one messenger. *)
Definition connect (self : Signal) (handler : callable) (w : World) : World :=
  subscribe (sig_id self) handler w.

Definition disconnect (self : Signal) (handler : callable) (w : World)
  : result unit * World :=
  unsubscribe (sig_id self) handler w.

Definition emit (self : Signal) (args : list value) (kw : kwargs) (w : World)
  : result unit * World :=
  send (sig_id self) args kw w.

(** [Signal.__str__]. *)
Definition Signal_str (self : Signal) : result string :=
  match sig_name self with
  | Some n => Return ("signal " +:+ n)
  | None => Raise AttributeError
  end.

(** The objects that a class body can hold and that the metaclass looks
    at; they are mutated in place, so they live in a heap. *)
Inductive object :=
| ObjNotifiable (d : Notifiable)
| ObjSignal (s : Signal)
| ObjOther.

(** [not hasattr(val, 'name') or not val.name]: a missing name, [None] and
    the empty string all count as no name. *)
Definition unnamed (n : option string) : bool :=
  match n with
  | Some n => String.eqb n ""
  | None => true
  end.

(** The body of the loop of [ViewModelMeta.__new__] for one item of the
    class dictionary. *)
Definition name_member (key : string) (val : value) (heap : gmap ref object)
  : gmap ref object :=
  match val with
  | VRef r =>
      match heap !! r with
      | Some (ObjNotifiable d) =>
          if unnamed (name d)
          then <[r := ObjNotifiable {| name := Some key; initial := initial d |}]> heap
          else heap
      | Some (ObjSignal sg) =>
          if unnamed (sig_name sg)
          then <[r := ObjSignal {| sig_id := sig_id sg; sig_name := Some key |}]> heap
          else heap
      | _ => heap
      end
  | _ => heap
  end.

(** [ViewModelMeta.__new__(cls, name, bases, dct)], with [dct.items()] in
    the order the loop sees them: the name the class is created with and
    the heap afterwards. The loop variable is the parameter [name]. *)
Definition ViewModelMeta_new (name : string) (dct : list (string * value))
           (heap : gmap ref object) : string * gmap ref object :=
  foldl (fun st item => (fst item, name_member (fst item) (snd item) (snd st)))
        (name, heap) dct.

End Signal.

(* ===================================================================== *)
(** * notifiable                                                          *)
(* ===================================================================== *)

Module Decorator.
Import Py ViewModel.

Section Property.

(** The decorated getter and setter, and the setter's [__name__]. *)
Variable getter : Instance -> result value.
Variable setter : Instance -> value -> result unit * Instance.
Variable setter_name : string.
Variable handle : ref -> option string -> result unit.

(** [newgetter]. *)
Definition newgetter (slf : Instance) : result value :=
  match getter slf with
  | Raise AttributeError => Return VNone
  | r => r
  end.

(** [newsetter]; [self.fget] is [newgetter]. *)
Definition newsetter (slf : Instance) (newvalue : value)
  : result unit * Instance * list event :=
  match newgetter slf with
  | Raise e => (Raise e, slf, [])
  | Return oldvalue =>
      if py_ne oldvalue newvalue then
        match setter slf newvalue with
        | (Raise e, slf') => (Raise e, slf', [])
        | (Return _, slf') =>
            let '(r, ev) := RaisePropertyChanged handle slf' (Some setter_name) in
            (r, slf', ev)
        end
      else (Return tt, slf, [])
  end.

End Property.

End Decorator.

(* ===================================================================== *)
(** * Command and List, the other methods                                 *)
(* ===================================================================== *)

Module Commands.
Import Py ViewModel.

(** [command.can_execute], the decorator: it stores the predicate in the
    descriptor. *)
Definition command_can_execute (can_execute : ref) (self : command) : command :=
  {| _handler := _handler self; _can_execute := Some can_execute;
     _command := _command self |}.

Section Call.

(** What the call of a function of the view model with these arguments
    gives. *)
Variable call : ref -> list value -> result value.

(** The receiver a [partial] was built with, as an argument. *)
Definition receiver (p : partial) : value :=
  match p_arg p with
  | Some o => VRef o
  | None => VNone
  end.

(** The call of [p = partial(func, obj)] with the arguments [args]. *)
Definition partial_call (p : partial) (args : list value) : result value :=
  call (p_func p) (receiver p :: args).

(** [Command.Execute]. *)
Definition Execute (parameter : value) (self : Command) : result unit :=
  match partial_call (execute self) [parameter] with
  | Return _ => Return tt
  | Raise e => Raise e
  end.

(** [Command.CanExecute]. *)
Definition CanExecute (parameter : value) (self : Command) : result value :=
  match can_execute self with
  | Some p => partial_call p []
  | None => Return (VBool true)
  end.

End Call.

(** [self.Count]. *)
Definition Count (self : List) : Z := Z.of_nat (length self).

(** [ObservableCollection.RemoveAt]: an index outside the collection is an
    [ArgumentOutOfRangeException]. *)
Definition RemoveAt (index : Z) (self : List) : result value * List :=
  if ((0 <=? index) && (index <? Count self))%Z
  then (Return VNone, delete (Z.to_nat index) self)
  else (Raise (Exception_ "ArgumentOutOfRangeException"), self).

(** [List.pop(index)], for no index, [None] or an integer. *)
Definition pop (index : option Z) (self : List) : result value * List :=
  match index with
  | Some i =>
      if (i =? 0)%Z then RemoveAt (Count self - 1) self else RemoveAt i self
  | None => RemoveAt (Count self - 1) self
  end.

(** [List.__getitem__(y)] for an integer [y]: [list(self)[y]]. *)
Definition List_getitem (y : Z) (self : List) : result value :=
  let n := Count self in
  let i := if (y <? 0)%Z then (y + n)%Z else y in
  if ((0 <=? i) && (i <? n))%Z then
    match self !! Z.to_nat i with
    | Some v => Return v
    | None => Raise (Exception_ "IndexError")
    end
  else Raise (Exception_ "IndexError").

End Commands.

(* ===================================================================== *)
(** * What holds of the worlds of the messenger                           *)
(* ===================================================================== *)

Module Registry.
Import Py Messenger.

(** The stored wrappers carry the messenger's callback and were allocated
    one after the other: no two of them, on whatever topics, share an
    identity. *)
Definition well_formed (w : World) : Prop :=
  (∀ k, Forall (fun wc => wc_id wc < next_id w ∧ _ext_on_collect wc = true)
               (subscribers_of w k))
  ∧ (∀ k, NoDup (wc_id <$> subscribers_of w k))
  ∧ (∀ k1 k2 x y, x ∈ subscribers_of w k1 -> y ∈ subscribers_of w k2 ->
                  wc_id x = wc_id y -> x = y).

End Registry.

(* ===================================================================== *)
(** * Properties of the messenger                                         *)
(* ===================================================================== *)

Section MessengerFacts.
Import Py Messenger.

Variable run : ref -> list value -> kwargs -> result unit.

(** ** The dictionary of subscribers *)

Lemma getitem_fst (d : gmap topic (list WeakCallable)) (k : topic) :
  fst (getitem d k) = default [] (d !! k).
Proof. unfold getitem. destruct (d !! k); reflexivity. Qed.

Lemma getitem_snd (d : gmap topic (list WeakCallable)) (k k' : topic) :
  default [] (snd (getitem d k) !! k') = default [] (d !! k').
Proof.
  unfold getitem. destruct (d !! k) eqn:E; cbn; [reflexivity|].
  destruct (decide (k = k')) as [<-|Hne].
  - rewrite lookup_insert_eq, E. reflexivity.
  - rewrite lookup_insert_ne by exact Hne. reflexivity.
Qed.

Lemma getitem_present (d : gmap topic (list WeakCallable)) (k : topic) :
  default [] (d !! k) ≠ [] -> getitem d k = (default [] (d !! k), d).
Proof. unfold getitem. destruct (d !! k); cbn; congruence. Qed.

(** ** The loop over the subscribers *)

Lemma dispatch_cons (dead : gset ref) (wc : WeakCallable)
      (rest : list WeakCallable) (args : list value) (kw : kwargs) :
  dispatch run dead (wc :: rest) args kw
  = if passes run dead args kw wc
    then (fst (dispatch run dead rest args kw),
          snd (WeakCallable_call run dead wc args kw)
          ++ snd (dispatch run dead rest args kw))
    else WeakCallable_call run dead wc args kw.
Proof.
  unfold passes. cbn.
  destruct (WeakCallable_call run dead wc args kw) as [[[]|e] ev]; cbn.
  - destruct (dispatch run dead rest args kw); reflexivity.
  - destruct (is_ReferenceError e); [|reflexivity].
    destruct (dispatch run dead rest args kw); reflexivity.
Qed.

Lemma dispatch_app (dead : gset ref) (l1 l2 : list WeakCallable)
      (args : list value) (kw : kwargs) :
  Forall (fun wc => passes run dead args kw wc = true) l1 ->
  dispatch run dead (l1 ++ l2) args kw
  = (fst (dispatch run dead l2 args kw),
     snd (dispatch run dead l1 args kw) ++ snd (dispatch run dead l2 args kw)).
Proof.
  induction 1 as [|wc l1 Hwc _ IH].
  - cbn. destruct (dispatch run dead l2 args kw); reflexivity.
  - rewrite <- app_comm_cons, !dispatch_cons, Hwc, IH. cbn.
    rewrite app_assoc. reflexivity.
Qed.

Lemma dispatch_passes (dead : gset ref) (l : list WeakCallable)
      (args : list value) (kw : kwargs) :
  Forall (fun wc => passes run dead args kw wc = true) l ->
  fst (dispatch run dead l args kw) = Return tt.
Proof.
  induction 1 as [|wc l Hwc _ IH]; [reflexivity|].
  rewrite dispatch_cons, Hwc. exact IH.
Qed.

(** A silenced [ReferenceError]: the loop goes on with the next subscriber. *)
Lemma dispatch_swallows (dead : gset ref) (pre post : list WeakCallable)
      (wc : WeakCallable) (args : list value) (kw : kwargs) :
  Forall (fun s => passes run dead args kw s = true) pre ->
  fst (WeakCallable_call run dead wc args kw) = Raise ReferenceError ->
  dispatch run dead (pre ++ wc :: post) args kw
  = (fst (dispatch run dead post args kw),
     snd (dispatch run dead pre args kw)
     ++ snd (WeakCallable_call run dead wc args kw)
     ++ snd (dispatch run dead post args kw)).
Proof.
  intros Hpre Hwc. rewrite dispatch_app by exact Hpre.
  rewrite dispatch_cons. unfold passes. rewrite Hwc. reflexivity.
Qed.

(** Any other exception leaves the loop at once. *)
Lemma dispatch_propagates (dead : gset ref) (pre post : list WeakCallable)
      (wc : WeakCallable) (args : list value) (kw : kwargs) (e : exn) :
  Forall (fun s => passes run dead args kw s = true) pre ->
  fst (WeakCallable_call run dead wc args kw) = Raise e ->
  is_ReferenceError e = false ->
  dispatch run dead (pre ++ wc :: post) args kw
  = (Raise e,
     snd (dispatch run dead pre args kw)
     ++ snd (WeakCallable_call run dead wc args kw)).
Proof.
  intros Hpre Hwc He. rewrite dispatch_app by exact Hpre.
  rewrite dispatch_cons. unfold passes. rewrite Hwc, He.
  destruct (WeakCallable_call run dead wc args kw) as [r ev]. cbn in *.
  congruence.
Qed.

(** ... and the tick with it: the message is gone from the queue, the ones
    behind it stay. *)
Lemma execute_propagates (w : World) (msg : message) (q : list message)
      (pre post : list WeakCallable) (wc : WeakCallable) (e : exn) :
  _messages w = msg :: q ->
  subscribers_of w (msg_topic msg) = pre ++ wc :: post ->
  Forall (fun s => passes run (collected w) (msg_args msg) (msg_kwargs msg) s = true) pre ->
  fst (WeakCallable_call run (collected w) wc (msg_args msg) (msg_kwargs msg)) = Raise e ->
  is_ReferenceError e = false ->
  _execute run w
  = (Raise e,
     {| _subscribers := _subscribers w; _messages := q;
        collected := collected w; next_id := next_id w |},
     snd (dispatch run (collected w) pre (msg_args msg) (msg_kwargs msg))
     ++ snd (WeakCallable_call run (collected w) wc (msg_args msg) (msg_kwargs msg))).
Proof.
  intros Hq Hsubs Hpre Hwc He. unfold _execute. rewrite Hq. cbn [drain].
  unfold subscribers_of in Hsubs.
  rewrite getitem_present by (rewrite Hsubs; destruct pre; discriminate).
  rewrite Hsubs, (dispatch_propagates _ pre post wc _ _ e) by assumption.
  reflexivity.
Qed.

(** ** The loop over the queue *)

Lemma drain_app (dead : gset ref) (q1 q2 : list message) :
  ∀ d : gmap topic (list WeakCallable),
  drain run dead d (q1 ++ q2)
  = let '(r, d1, q', ev) := drain run dead d q1 in
    match r with
    | Return _ =>
        let '(r2, d2, q'', ev2) := drain run dead d1 q2 in (r2, d2, q'', ev ++ ev2)
    | Raise e => (Raise e, d1, q' ++ q2, ev)
    end.
Proof.
  induction q1 as [|msg q1 IH]; intros d; cbn.
  - destruct (drain run dead d q2) as [[[r2 d2] q''] ev2]. reflexivity.
  - destruct (getitem d (msg_topic msg)) as [l d'].
    destruct (dispatch run dead l (msg_args msg) (msg_kwargs msg)) as [[u|e] ev];
      [|reflexivity].
    rewrite IH.
    destruct (drain run dead d' q1) as [[[[u1|e1] d1] q'] ev1].
    + destruct (drain run dead d1 q2) as [[[r2 d2] q''] ev2].
      rewrite app_assoc. reflexivity.
    + reflexivity.
Qed.

(** The tick only ever adds empty lists to the dictionary. *)
Lemma drain_lookup (dead : gset ref) (q : list message) :
  ∀ (d : gmap topic (list WeakCallable)) (k : topic),
  default [] ((drain run dead d q).1.1.2 !! k) = default [] (d !! k).
Proof.
  induction q as [|msg q IH]; intros d k; cbn; [reflexivity|].
  pose proof (getitem_snd d (msg_topic msg) k) as Hg.
  destruct (getitem d (msg_topic msg)) as [l d']. cbn in Hg.
  destruct (dispatch run dead l (msg_args msg) (msg_kwargs msg)) as [[u|e] ev];
    [|exact Hg].
  specialize (IH d' k).
  destruct (drain run dead d' q) as [[[r1 d1] q'] ev1]. cbn in *. congruence.
Qed.

Lemma drain_map (dead : gset ref) (q : list message) :
  ∀ (d : gmap topic (list WeakCallable)) (k : topic) (l : list WeakCallable),
  (drain run dead d q).1.1.2 !! k = Some l -> l = [] ∨ d !! k = Some l.
Proof.
  induction q as [|msg q IH]; intros d k l; cbn; [auto|].
  assert (Hg : ∀ l', snd (getitem d (msg_topic msg)) !! k = Some l' ->
                     l' = [] ∨ d !! k = Some l').
  { intros l'. unfold getitem. destruct (d !! msg_topic msg) eqn:E; cbn; [auto|].
    destruct (decide (msg_topic msg = k)) as [<-|Hne].
    - rewrite lookup_insert_eq. intros [= <-]. auto.
    - rewrite lookup_insert_ne by exact Hne. auto. }
  destruct (getitem d (msg_topic msg)) as [l0 d']. cbn in Hg.
  destruct (dispatch run dead l0 (msg_args msg) (msg_kwargs msg)) as [[u|e] ev];
    [|apply Hg].
  specialize (IH d' k l).
  destruct (drain run dead d' q) as [[[r1 d1] q'] ev1]. cbn in *.
  intros H. destruct (IH H) as [->|H']; auto.
Qed.

(** A tick that returns has emptied the queue. *)
Lemma drain_returns (dead : gset ref) (q : list message) :
  ∀ (d : gmap topic (list WeakCallable)) (u : unit),
  (drain run dead d q).1.1.1 = Return u -> (drain run dead d q).1.2 = [].
Proof.
  induction q as [|msg q IH]; intros d u; cbn; [reflexivity|].
  destruct (getitem d (msg_topic msg)) as [l d'].
  destruct (dispatch run dead l (msg_args msg) (msg_kwargs msg)) as [[u0|e] ev];
    [|discriminate].
  specialize (IH d' u).
  destruct (drain run dead d' q) as [[[r1 d1] q'] ev1]. exact IH.
Qed.

Lemma send_appends (m : topic) (args : list value) (kw : kwargs) (w : World) :
  send m args kw w
  = (Return tt,
     {| _subscribers := _subscribers w;
        _messages := _messages w
                     ++ [{| msg_topic := m; msg_args := args; msg_kwargs := kw |}];
        collected := collected w; next_id := next_id w |}).
Proof. reflexivity. Qed.

(** C6, amended: [send] returns, for every topic and in every world, and
    puts the message at the end of the queue. When the topic has no
    subscribers and the messages queued before this one are dispatched
    without an exception (there are none when the messenger is idle), the
    tick that follows takes the message off the queue and calls nothing
    for it: it returns with the queue empty, having made the calls of the
    earlier messages and no other. *)
Theorem send_without_subscribers
        (m : topic) (args : list value) (kw : kwargs) (w : World) :
  ∃ w1,
    send m args kw w = (Return tt, w1)
    ∧ _messages w1
      = _messages w ++ [{| msg_topic := m; msg_args := args; msg_kwargs := kw |}]
    ∧ (subscribers_of w m = [] ->
       fst (fst (_execute run w)) = Return tt ->
       ∃ w2,
         _execute run w1 = (Return tt, w2, snd (_execute run w))
         ∧ _messages w2 = []
         ∧ ∀ k, subscribers_of w2 k = subscribers_of w k).
Proof.
  rewrite send_appends. eexists. split; [reflexivity|]. split; [reflexivity|].
  intros Hm. unfold _execute; cbn [snd _messages _subscribers collected next_id].
  rewrite drain_app.
  pose proof (drain_lookup (collected w) (_messages w) (_subscribers w)) as Hl.
  destruct (drain run (collected w) (_subscribers w) (_messages w))
    as [[[r d1] q'] ev] eqn:E.
  cbn in Hl |- *. intros ->. cbn [drain msg_topic msg_args msg_kwargs].
  pose proof (getitem_fst d1 m) as Hf. pose proof (getitem_snd d1 m) as Hs.
  destruct (getitem d1 m) as [l d2]. cbn in Hf, Hs.
  rewrite Hl in Hf. unfold subscribers_of in Hm. rewrite Hm in Hf. subst l.
  cbn. rewrite !app_nil_r.
  eexists. split; [reflexivity|]. split; [reflexivity|].
  intros k. unfold subscribers_of; cbn. rewrite Hs. apply Hl.
Qed.

(** ** What a call records *)

Lemma invocation_inj (h1 h2 : callable) (args : list value) (kw : kwargs) :
  invocation h1 args kw = invocation h2 args kw -> h1 = h2.
Proof.
  destruct h1 as [f1 o1|f1], h2 as [f2 o2|f2]; cbn; intros H.
  - injection H as -> ->. reflexivity.
  - injection H as _ H. apply (f_equal length) in H. cbn in H. lia.
  - injection H as _ H. apply (f_equal length) in H. cbn in H. lia.
  - injection H as ->. reflexivity.
Qed.

Lemma call_events (dead : gset ref) (wc : WeakCallable)
      (args : list value) (kw : kwargs) :
  snd (WeakCallable_call run dead wc args kw) = []
  ∨ snd (WeakCallable_call run dead wc args kw) = [invocation (target wc) args kw].
Proof.
  unfold WeakCallable_call, target, deref.
  destruct (_obj wc) as [o|]; repeat case_decide; cbn; auto.
Qed.

(** A wrapper whose referents are alive calls its handler. *)
Lemma call_alive (dead : gset ref) (id : nat) (h : callable) (b : bool)
      (args : list value) (kw : kwargs) :
  Forall (fun o => o ∉ dead) (referents h) ->
  WeakCallable_call run dead (WeakCallable_init id h b) args kw
  = (run (ev_func (invocation h args kw)) (ev_args (invocation h args kw)) kw,
     [invocation h args kw]).
Proof.
  intros Halive. unfold WeakCallable_call, deref.
  destruct h as [f o|f]; cbn in *.
  - apply Forall_cons in Halive as [Hf Ho]. apply Forall_cons in Ho as [Ho _].
    rewrite !decide_False by assumption. reflexivity.
  - apply Forall_cons in Halive as [Hf _].
    rewrite decide_False by assumption. reflexivity.
Qed.

(** A wrapper with a collected referent raises [ReferenceError] and calls
    nothing. *)
Lemma call_collected (dead : gset ref) (wc : WeakCallable)
      (args : list value) (kw : kwargs) :
  Exists (fun o => o ∈ dead) (referents (target wc)) ->
  WeakCallable_call run dead wc args kw = (Raise ReferenceError, []).
Proof.
  unfold WeakCallable_call, target, deref.
  destruct (_obj wc) as [o|]; cbn; intros H.
  - apply Exists_cons in H as [H|H].
    + rewrite (decide_True _ _ H). reflexivity.
    + apply Exists_cons in H as [H|H]; [|inversion H].
      rewrite (decide_True _ _ H). case_decide; reflexivity.
  - apply Exists_cons in H as [H|H]; [|inversion H].
    rewrite (decide_True _ _ H). reflexivity.
Qed.

Lemma dispatch_events (dead : gset ref) (l : list WeakCallable)
      (args : list value) (kw : kwargs) :
  Forall (fun e => ∃ wc, wc ∈ l ∧ e = invocation (target wc) args kw)
         (snd (dispatch run dead l args kw)).
Proof.
  induction l as [|wc l IH]; [constructor|].
  rewrite dispatch_cons.
  assert (Hwc : Forall (fun e => ∃ wc', wc' ∈ wc :: l
                                        ∧ e = invocation (target wc') args kw)
                       (snd (WeakCallable_call run dead wc args kw))).
  { destruct (call_events dead wc args kw) as [-> | ->]; [constructor|].
    constructor; [|constructor]. exists wc. split; [left|reflexivity]. }
  destruct (passes run dead args kw wc); cbn; [|exact Hwc].
  apply Forall_app. split; [exact Hwc|].
  eapply Forall_impl; [exact IH|]. cbn. intros e (wc' & Hin & ->).
  exists wc'. split; [right; exact Hin|reflexivity].
Qed.

(** A tick in which every call returns or raises [ReferenceError] returns
    and leaves the queue empty. *)
Lemma drain_all_pass (dead : gset ref) (q : list message) :
  ∀ d : gmap topic (list WeakCallable),
  Forall (fun msg => Forall (fun s => passes run dead (msg_args msg) (msg_kwargs msg) s = true)
                            (default [] (d !! msg_topic msg))) q ->
  (drain run dead d q).1.1.1 = Return tt.
Proof.
  induction q as [|msg q IH]; intros d Hq; cbn; [reflexivity|].
  apply Forall_cons in Hq as [Hmsg Hq].
  pose proof (getitem_fst d (msg_topic msg)) as Hf.
  pose proof (getitem_snd d (msg_topic msg)) as Hs.
  destruct (getitem d (msg_topic msg)) as [l d']. cbn in Hf, Hs. subst l.
  pose proof (dispatch_passes dead _ _ _ Hmsg) as Hd.
  destruct (dispatch run dead (default [] (d !! msg_topic msg))
                     (msg_args msg) (msg_kwargs msg)) as [r ev].
  cbn in Hd. subst r.
  specialize (IH d').
  destruct (drain run dead d' q) as [[[r1 d1] q'] ev1]. cbn in *.
  apply IH. eapply Forall_impl; [exact Hq|]. cbn. intros msg'.
  rewrite Hs. auto.
Qed.

Lemma execute_all_pass (w : World) :
  Forall (fun msg =>
            Forall (fun s => passes run (collected w) (msg_args msg) (msg_kwargs msg) s = true)
                   (subscribers_of w (msg_topic msg)))
         (_messages w) ->
  fst (fst (_execute run w)) = Return tt
  ∧ _messages (snd (fst (_execute run w))) = [].
Proof.
  intros Hq. unfold _execute.
  pose proof (drain_all_pass (collected w) (_messages w) (_subscribers w) Hq) as H.
  pose proof (drain_returns (collected w) (_messages w) (_subscribers w) tt H) as H'.
  destruct (drain run (collected w) (_subscribers w) (_messages w))
    as [[[r d] q] ev]. cbn in *. auto.
Qed.

(** The calls of a tick in which every call returns or raises
    [ReferenceError]: those of the dispatch of each message, in the order
    of the queue. *)
Lemma drain_calls (dead : gset ref) (q : list message) :
  ∀ d : gmap topic (list WeakCallable),
  Forall (fun msg => Forall (fun s => passes run dead (msg_args msg) (msg_kwargs msg) s = true)
                            (default [] (d !! msg_topic msg))) q ->
  (drain run dead d q).2
  = mjoin ((fun msg => snd (dispatch run dead (default [] (d !! msg_topic msg))
                                     (msg_args msg) (msg_kwargs msg))) <$> q).
Proof.
  induction q as [|msg q IH]; intros d Hq; cbn; [reflexivity|].
  apply Forall_cons in Hq as [Hmsg Hq].
  pose proof (getitem_fst d (msg_topic msg)) as Hf.
  pose proof (getitem_snd d (msg_topic msg)) as Hs.
  destruct (getitem d (msg_topic msg)) as [l d']. cbn in Hf, Hs. subst l.
  pose proof (dispatch_passes dead _ _ _ Hmsg) as Hd.
  destruct (dispatch run dead (default [] (d !! msg_topic msg))
                     (msg_args msg) (msg_kwargs msg)) as [r ev].
  cbn in Hd. subst r.
  specialize (IH d').
  destruct (drain run dead d' q) as [[[r1 d1] q'] ev1]. cbn in *.
  rewrite IH.
  - do 2 f_equal. apply list_fmap_ext. intros _ msg' _. cbn. rewrite Hs. reflexivity.
  - eapply Forall_impl; [exact Hq|]. cbn. intros msg'. rewrite Hs. auto.
Qed.

Lemma execute_all_pass_calls (w : World) :
  Forall (fun msg =>
            Forall (fun s => passes run (collected w) (msg_args msg) (msg_kwargs msg) s = true)
                   (subscribers_of w (msg_topic msg)))
         (_messages w) ->
  fst (fst (_execute run w)) = Return tt
  ∧ _messages (snd (fst (_execute run w))) = []
  ∧ snd (_execute run w)
    = mjoin ((fun msg => snd (dispatch run (collected w)
                                       (subscribers_of w (msg_topic msg))
                                       (msg_args msg) (msg_kwargs msg)))
               <$> _messages w).
Proof.
  intros Hq. destruct (execute_all_pass w Hq) as [Hr Hempty].
  split; [exact Hr|]. split; [exact Hempty|]. unfold _execute.
  pose proof (drain_calls (collected w) (_messages w) (_subscribers w) Hq) as H.
  destruct (drain run (collected w) (_subscribers w) (_messages w))
    as [[[r d] q] ev]. exact H.
Qed.

(** An exception other than [ReferenceError], raised for whichever message
    of the queue: the messages before it were dispatched, the message is
    gone, the ones behind it stay. *)
Lemma execute_propagates_anywhere
      (w : World) (before : list message) (msg : message) (q : list message)
      (pre post : list WeakCallable) (wc : WeakCallable) (e : exn) :
  _messages w = before ++ msg :: q ->
  Forall (fun msg' =>
            Forall (fun s => passes run (collected w) (msg_args msg') (msg_kwargs msg') s = true)
                   (subscribers_of w (msg_topic msg')))
         before ->
  subscribers_of w (msg_topic msg) = pre ++ wc :: post ->
  Forall (fun s => passes run (collected w) (msg_args msg) (msg_kwargs msg) s = true) pre ->
  fst (WeakCallable_call run (collected w) wc (msg_args msg) (msg_kwargs msg)) = Raise e ->
  is_ReferenceError e = false ->
  ∃ w',
    _execute run w
    = (Raise e, w',
       mjoin ((fun msg' => snd (dispatch run (collected w)
                                         (subscribers_of w (msg_topic msg'))
                                         (msg_args msg') (msg_kwargs msg')))
                <$> before)
       ++ snd (dispatch run (collected w) pre (msg_args msg) (msg_kwargs msg))
       ++ snd (WeakCallable_call run (collected w) wc (msg_args msg) (msg_kwargs msg)))
    ∧ _messages w' = q
    ∧ ∀ k, subscribers_of w' k = subscribers_of w k.
Proof.
  intros Hq Hbefore Hsubs Hpre Hwc He. unfold _execute. rewrite Hq, drain_app.
  pose proof (drain_all_pass (collected w) before (_subscribers w) Hbefore) as Hr.
  pose proof (drain_calls (collected w) before (_subscribers w) Hbefore) as Hev.
  pose proof (drain_lookup (collected w) before (_subscribers w)) as Hl.
  destruct (drain run (collected w) (_subscribers w) before)
    as [[[r d1] q'] ev]. cbn in Hr, Hev, Hl. subst r ev. cbn [drain].
  unfold subscribers_of in Hsubs. rewrite <- Hl in Hsubs.
  rewrite getitem_present by (rewrite Hsubs; destruct pre; discriminate).
  rewrite Hsubs, (dispatch_propagates _ pre post wc _ _ e) by assumption.
  eexists. split; [reflexivity|]. split; [reflexivity|].
  intros k. unfold subscribers_of. cbn. apply Hl.
Qed.

(** C5: a wrapper whose target has been collected raises [ReferenceError]
    when it is called; in the loop of the tick a subscriber whose call
    raises [ReferenceError] is passed over and the subscribers after it are
    still called, so that a tick in which no call raises anything else
    returns with the queue empty, having dispatched every message to all
    its subscribers; a subscriber whose call raises any other exception,
    for whichever message of the queue, ends the tick with that exception:
    the subscribers after it are not called for that message, and the
    messages queued behind it are still in the queue. *)
Theorem execute_silences_ReferenceError_only :
  (∀ dead wc args kw,
      Exists (fun o => o ∈ dead) (referents (target wc)) ->
      WeakCallable_call run dead wc args kw = (Raise ReferenceError, []))
  ∧ (∀ dead pre wc post args kw,
      Forall (fun s => passes run dead args kw s = true) pre ->
      fst (WeakCallable_call run dead wc args kw) = Raise ReferenceError ->
      dispatch run dead (pre ++ wc :: post) args kw
      = (fst (dispatch run dead post args kw),
         snd (dispatch run dead pre args kw)
         ++ snd (WeakCallable_call run dead wc args kw)
         ++ snd (dispatch run dead post args kw)))
  ∧ (∀ w,
      Forall (fun msg =>
                Forall (fun s => passes run (collected w) (msg_args msg) (msg_kwargs msg) s = true)
                       (subscribers_of w (msg_topic msg)))
             (_messages w) ->
      fst (fst (_execute run w)) = Return tt
      ∧ _messages (snd (fst (_execute run w))) = []
      ∧ snd (_execute run w)
        = mjoin ((fun msg => snd (dispatch run (collected w)
                                           (subscribers_of w (msg_topic msg))
                                           (msg_args msg) (msg_kwargs msg)))
                   <$> _messages w))
  ∧ (∀ w before msg q pre wc post e,
      _messages w = before ++ msg :: q ->
      Forall (fun msg' =>
                Forall (fun s => passes run (collected w) (msg_args msg') (msg_kwargs msg') s = true)
                       (subscribers_of w (msg_topic msg')))
             before ->
      subscribers_of w (msg_topic msg) = pre ++ wc :: post ->
      Forall (fun s => passes run (collected w) (msg_args msg) (msg_kwargs msg) s = true) pre ->
      fst (WeakCallable_call run (collected w) wc (msg_args msg) (msg_kwargs msg)) = Raise e ->
      is_ReferenceError e = false ->
      ∃ w',
        _execute run w
        = (Raise e, w',
           mjoin ((fun msg' => snd (dispatch run (collected w)
                                             (subscribers_of w (msg_topic msg'))
                                             (msg_args msg') (msg_kwargs msg')))
                    <$> before)
           ++ snd (dispatch run (collected w) pre (msg_args msg) (msg_kwargs msg))
           ++ snd (WeakCallable_call run (collected w) wc (msg_args msg) (msg_kwargs msg)))
        ∧ _messages w' = q
        ∧ ∀ k, subscribers_of w' k = subscribers_of w k).
Proof.
  split; [|split; [|split]].
  - intros. apply call_collected; assumption.
  - intros. apply dispatch_swallows; assumption.
  - intros. apply execute_all_pass_calls; assumption.
  - intros. eapply execute_propagates_anywhere; eassumption.
Qed.

Lemma filter_none (x : event) (l : list event) :
  Forall (fun e => e ≠ x) l -> filter (fun e => e = x) l = [].
Proof.
  induction 1 as [|e l He _ IH]; [reflexivity|].
  rewrite filter_cons_False by exact He. exact IH.
Qed.

(** C1, amended: on an idle messenger, with the handler alive and the
    subscribers already on the topic letting the loop through,
    [subscribe] of [h], then
    [send] of a message, then one tick: the message is sent and taken off
    the queue, the calls made are those of the earlier subscribers, in
    their order, followed by one call of [h] with the arguments of the
    message; [h] not being subscribed to the topic before, that call is the
    only call of [h] with these arguments. *)
Theorem subscribed_handler_called_once
        (m : topic) (h : callable) (args : list value) (kw : kwargs) (w : World) :
  _messages w = [] ->
  Forall (fun o => o ∉ collected w) (referents h) ->
  Forall (fun s => passes run (collected w) args kw s = true) (subscribers_of w m) ->
  Forall (fun s => target s ≠ h) (subscribers_of w m) ->
  ∃ w1 r w2 evs,
    send m args kw (subscribe m h w) = (Return tt, w1)
    ∧ _execute run w1 = (r, w2, evs)
    ∧ _messages w2 = []
    ∧ evs = snd (dispatch run (collected w) (subscribers_of w m) args kw)
            ++ [invocation h args kw]
    ∧ length (filter (fun e => e = invocation h args kw) evs) = 1.
Proof.
  intros Hq Halive Hpass Hnew.
  rewrite send_appends. eexists. 
  assert (Hex : ∃ r w2,
             _execute run
               {| _subscribers := _subscribers (subscribe m h w);
                  _messages := _messages (subscribe m h w)
                    ++ [{| msg_topic := m; msg_args := args; msg_kwargs := kw |}];
                  collected := collected (subscribe m h w);
                  next_id := next_id (subscribe m h w) |}
             = (r, w2,
                snd (dispatch run (collected w) (subscribers_of w m) args kw)
                ++ [invocation h args kw])
             ∧ _messages w2 = []).
  { unfold subscribe, _execute, subscribers_of.
    pose proof (getitem_fst (_subscribers w) m) as Hf.
    destruct (getitem (_subscribers w) m) as [l d]. cbn in Hf. subst l.
    cbn [_subscribers _messages collected next_id]. rewrite Hq.
    cbn [app drain msg_topic msg_args msg_kwargs].
    unfold getitem at 1. rewrite lookup_insert_eq.
    rewrite dispatch_app by exact Hpass.
    rewrite dispatch_cons. unfold passes.
    rewrite (call_alive _ _ _ _ _ _ Halive). cbn [fst snd dispatch].
    destruct (run _ _ kw) as [u|e]; [|destruct (is_ReferenceError e)];
      cbn; rewrite ?app_nil_r; eexists _, _; split; reflexivity. }
  destruct Hex as (r & w2 & Hex & Hq2).
  exists r, w2, (snd (dispatch run (collected w) (subscribers_of w m) args kw)
                 ++ [invocation h args kw]).
  split; [reflexivity|]. split; [exact Hex|]. split; [exact Hq2|].
  split; [reflexivity|].
  rewrite filter_app, length_app, filter_none; cbn.
  - rewrite decide_True by reflexivity. reflexivity.
  - pose proof (dispatch_events (collected w) (subscribers_of w m) args kw) as Hev.
    eapply Forall_impl; [exact Hev|]. cbn. intros e (wc & Hin & ->) Heq.
    apply invocation_inj in Heq.
    rewrite Forall_forall in Hnew. exact (Hnew wc Hin Heq).
Qed.

(** ** Identity of the stored wrappers *)

Lemma list_remove_Forall (P : WeakCallable -> Prop) (x : WeakCallable) :
  ∀ l l', list_remove x l = Some l' -> Forall P l -> Forall P l'.
Proof.
  induction l as [|y l IH]; intros l'; cbn; [discriminate|].
  destruct (wc_eq y x).
  - intros [= <-] H. apply Forall_cons in H as [_ H]. exact H.
  - destruct (list_remove x l) as [r|]; [|discriminate].
    intros [= <-] H. apply Forall_cons in H as [Hy H].
    constructor; [exact Hy|]. apply IH; [reflexivity|exact H].
Qed.

(** A wrapper allocated after all those of a list is not found in it. *)
Lemma list_remove_fresh (x : WeakCallable) (l : list WeakCallable) :
  Forall (fun wc => wc_id wc < wc_id x) l ->
  Forall (fun wc => wc_eq wc x = false) l ∧ list_remove x l = None.
Proof.
  induction 1 as [|y l Hy _ [IH1 IH2]]; [split; [constructor|reflexivity]|].
  assert (Hne : wc_eq y x = false) by (unfold wc_eq; apply Nat.eqb_neq; lia).
  split; [constructor; assumption|]. cbn. rewrite Hne, IH2. reflexivity.
Qed.

Lemma allocated_lookup (w : World) (k : topic) :
  allocated w -> Forall (fun wc => wc_id wc < next_id w) (subscribers_of w k).
Proof.
  intros Hw. unfold subscribers_of.
  destruct (_subscribers w !! k) as [l|] eqn:E; [|constructor].
  exact (Hw k l E).
Qed.

Lemma allocated_weaken (d d' : gmap topic (list WeakCallable)) (n n' : nat) :
  n ≤ n' ->
  (∀ k l', d' !! k = Some l' ->
           Forall (fun wc => wc_id wc < n') l'
           ∨ ∃ l, d !! k = Some l ∧ (Forall (fun wc => wc_id wc < n) l ->
                                      Forall (fun wc => wc_id wc < n) l')) ->
  map_Forall (fun _ l => Forall (fun wc => wc_id wc < n) l) d ->
  map_Forall (fun _ l => Forall (fun wc => wc_id wc < n') l) d'.
Proof.
  intros Hn Hd Hall k l' Hk.
  destruct (Hd k l' Hk) as [H|(l & Hl & H)]; [exact H|].
  eapply Forall_impl; [apply H, (Hall k l Hl)|]. cbn. intros; lia.
Qed.

Lemma getitem_lookup (d : gmap topic (list WeakCallable)) (k k' : topic)
      (l : list WeakCallable) :
  snd (getitem d k) !! k' = Some l -> l = [] ∨ d !! k' = Some l.
Proof.
  unfold getitem. destruct (d !! k) eqn:E; cbn; [auto|].
  destruct (decide (k = k')) as [<-|Hne].
  - rewrite lookup_insert_eq. intros [= <-]. auto.
  - rewrite lookup_insert_ne by exact Hne. auto.
Qed.

Lemma allocated_subscribe (m : topic) (h : callable) (w : World) :
  allocated w -> allocated (subscribe m h w).
Proof.
  intros Hw. unfold allocated, subscribe.
  pose proof (getitem_fst (_subscribers w) m) as Hf.
  pose proof (getitem_lookup (_subscribers w) m) as Hs.
  destruct (getitem (_subscribers w) m) as [l d]. cbn in Hf, Hs. subst l.
  cbn [_subscribers next_id].
  eapply allocated_weaken; [apply Nat.le_succ_diag_r| |exact Hw].
  intros k l'. destruct (decide (m = k)) as [<-|Hne].
  - rewrite lookup_insert_eq. intros [= <-]. left.
    apply Forall_app. split.
    + eapply Forall_impl; [apply (allocated_lookup w m Hw)|]. cbn. intros; lia.
    + constructor; [|constructor]. destruct h; cbn; lia.
  - rewrite lookup_insert_ne by exact Hne. intros Hk.
    destruct (Hs k l' Hk) as [->|Hk']; [left; constructor|].
    right. exists l'. auto.
Qed.

Lemma allocated_unsubscribe (m : topic) (h : callable) (w : World) :
  allocated w -> allocated (snd (unsubscribe m h w)).
Proof.
  intros Hw. unfold allocated, unsubscribe.
  pose proof (getitem_fst (_subscribers w) m) as Hf.
  pose proof (getitem_lookup (_subscribers w) m) as Hs.
  destruct (getitem (_subscribers w) m) as [l d]. cbn in Hf, Hs. subst l.
  destruct (list_remove _ _) as [l'|] eqn:E; cbn [snd _subscribers next_id].
  - eapply allocated_weaken; [apply Nat.le_succ_diag_r| |exact Hw].
    intros k l''. destruct (decide (m = k)) as [<-|Hne].
    + rewrite lookup_insert_eq. intros [= <-]. left.
      eapply Forall_impl.
      * eapply list_remove_Forall; [exact E|apply (allocated_lookup w m Hw)].
      * cbn. intros; lia.
    + rewrite lookup_insert_ne by exact Hne. intros Hk.
      destruct (Hs k l'' Hk) as [->|Hk']; [left; constructor|].
      right. exists l''. auto.
  - eapply allocated_weaken; [apply Nat.le_succ_diag_r| |exact Hw].
    intros k l'' Hk.
    destruct (Hs k l'' Hk) as [->|Hk']; [left; constructor|].
    right. exists l''. auto.
Qed.

Lemma allocated_execute (w : World) :
  allocated w -> allocated (snd (fst (_execute run w))).
Proof.
  intros Hw. unfold allocated, _execute.
  pose proof (drain_map (collected w) (_messages w) (_subscribers w)) as Hd.
  destruct (drain run (collected w) (_subscribers w) (_messages w))
    as [[[r d] q] ev]. cbn in *.
  eapply allocated_weaken; [apply Nat.le_refl| |exact Hw].
  intros k l' Hk. destruct (Hd k l' Hk) as [->|Hk']; [left; constructor|].
  right. exists l'. auto.
Qed.

Lemma allocated_on_collect (ref : WeakCallable) (w : World) :
  allocated w -> allocated (_on_collect ref w).
Proof.
  intros Hw. unfold allocated, _on_collect. cbn [_subscribers next_id].
  eapply allocated_weaken; [apply Nat.le_refl| |exact Hw].
  intros k l'. rewrite lookup_fmap.
  destruct (_subscribers w !! k) as [l|] eqn:E; cbn; [|discriminate].
  intros [= <-]. right. exists l. split; [reflexivity|].
  destruct (wc_in ref l); [|auto].
  destruct (list_remove ref l) as [l'|] eqn:Er; cbn; [|auto].
  apply (list_remove_Forall _ ref l l' Er).
Qed.

Lemma allocated_collect (o : ref) (w : World) :
  allocated w -> allocated (gc_collect o w).
Proof.
  intros Hw. unfold gc_collect.
  induction (dying o w) as [|wc l IH]; cbn; [exact Hw|].
  apply allocated_on_collect, IH.
Qed.

Lemma allocated_reachable (w : World) : reachable run w -> allocated w.
Proof.
  induction 1 as [|w w' _ IH Hstep].
  - intros k l. cbn. rewrite lookup_empty. discriminate.
  - destruct Hstep.
    + apply allocated_subscribe, IH.
    + apply allocated_unsubscribe, IH.
    + rewrite send_appends. exact IH.
    + apply allocated_execute, IH.
    + apply allocated_collect, IH.
Qed.

(** C4: in every world the messenger can get into, and for every topic and
    handler, the wrapper that [unsubscribe] builds is unequal to every
    wrapper stored for the topic, the call raises [ValueError], and the
    subscriber list of every topic is afterwards what it was: no entry is
    removed, whether or not the handler was subscribed. *)
Theorem unsubscribe_never_removes (m : topic) (h : callable) (w : World) :
  reachable run w ->
  Forall (fun wc => wc_eq wc (WeakCallable_init (next_id w) h false) = false)
         (subscribers_of w m)
  ∧ fst (unsubscribe m h w) = Raise ValueError
  ∧ ∀ k, subscribers_of (snd (unsubscribe m h w)) k = subscribers_of w k.
Proof.
  intros Hw. apply allocated_reachable in Hw.
  destruct (list_remove_fresh (WeakCallable_init (next_id w) h false)
                              (subscribers_of w m)) as [Hne Hrm].
  { eapply Forall_impl; [apply (allocated_lookup w m Hw)|].
    cbn. intros wc Hlt. destruct h; exact Hlt. }
  split; [exact Hne|].
  unfold unsubscribe.
  pose proof (getitem_fst (_subscribers w) m) as Hf.
  pose proof (getitem_snd (_subscribers w) m) as Hs.
  destruct (getitem (_subscribers w) m) as [l d]. cbn in Hf, Hs.
  fold (subscribers_of w m) in Hf. subst l. rewrite Hrm. cbn.
  split; [reflexivity|]. intros k. unfold subscribers_of. cbn. apply Hs.
Qed.

End MessengerFacts.

(** ** The theorems on the session *)

Section SessionFacts.
Import Py Messenger Session.

(** C1 at work: function 2 is on topic 0, the method 5 of object 6
    subscribes, 9 is sent, the tick calls function 2 and then the method. *)
Lemma subscribed_handler_called_once_session :
  let w := subscribe 0 (Function 2) init in
  _messages w = []
  ∧ Forall (fun o => o ∉ collected w) (referents (Method 5 6))
  ∧ Forall (fun s => passes run (collected w) [VInt 9] [] s = true) (subscribers_of w 0)
  ∧ Forall (fun s => target s ≠ Method 5 6) (subscribers_of w 0)
  ∧ ∃ w1 r w2 evs,
      send 0 [VInt 9] [] (subscribe 0 (Method 5 6) w) = (Return tt, w1)
      ∧ _execute run w1 = (r, w2, evs)
      ∧ _messages w2 = []
      ∧ evs = snd (dispatch run (collected w) (subscribers_of w 0) [VInt 9] [])
              ++ [invocation (Method 5 6) [VInt 9] []]
      ∧ length (filter (fun e => e = invocation (Method 5 6) [VInt 9] []) evs) = 1.
Proof.
  cbn zeta.
  assert (H1 : _messages (subscribe 0 (Function 2) init) = []) by reflexivity.
  assert (H2 : Forall (fun o => o ∉ collected (subscribe 0 (Function 2) init))
                      (referents (Method 5 6))).
  { apply Forall_cons; split; [apply not_elem_of_empty|].
    apply Forall_cons; split; [apply not_elem_of_empty|constructor]. }
  assert (H3 : Forall (fun s => passes run (collected (subscribe 0 (Function 2) init))
                                      [VInt 9] [] s = true)
                      (subscribers_of (subscribe 0 (Function 2) init) 0)).
  { vm_compute. repeat constructor. }
  assert (H4 : Forall (fun s => target s ≠ Method 5 6)
                      (subscribers_of (subscribe 0 (Function 2) init) 0)).
  { vm_compute. repeat constructor. discriminate. }
  repeat split; try assumption.
  exact (subscribed_handler_called_once run 0 (Method 5 6) [VInt 9] [] _ H1 H2 H3 H4).
Defined.

(** C4 at work: function 2 is subscribed to topic 0 and then unsubscribed. *)
Lemma unsubscribe_never_removes_session :
  let w := subscribe 0 (Function 2) init in
  reachable run w
  ∧ Forall (fun wc => wc_eq wc (WeakCallable_init (next_id w) (Function 2) false) = false)
           (subscribers_of w 0)
  ∧ fst (unsubscribe 0 (Function 2) w) = Raise ValueError
  ∧ ∀ k, subscribers_of (snd (unsubscribe 0 (Function 2) w)) k = subscribers_of w k.
Proof.
  cbn zeta.
  assert (H : reachable run (subscribe 0 (Function 2) init)).
  { eapply reachable_step; [apply reachable_init|apply step_subscribe]. }
  split; [exact H|].
  exact (unsubscribe_never_removes run 0 (Function 2) _ H).
Defined.

(** C5 at work. In [busy two_subscribers] the method has lost its function:
    both messages are dispatched to function 2 alone. In [mixed] the first
    message is dispatched to function 2, function 1 raises on the second
    message and the third one stays queued. *)
Lemma execute_silences_ReferenceError_only_session :
  let dead_method := WeakCallable_init 0 (Method 3 4) true in
  let returning := WeakCallable_init 2 (Function 2) true in
  let raising := WeakCallable_init 1 (Function 1) true in
  let msg7 := {| msg_topic := 0; msg_args := [VInt 7]; msg_kwargs := [] |} in
  let msg8 := {| msg_topic := 1; msg_args := [VInt 8]; msg_kwargs := [] |} in
  let msg9 := {| msg_topic := 0; msg_args := [VInt 9]; msg_kwargs := [] |} in
  WeakCallable_call run {[3]} dead_method [VInt 7] [] = (Raise ReferenceError, [])
  ∧ dispatch run {[3]} ([] ++ dead_method :: [returning]) [VInt 7] []
    = (fst (dispatch run {[3]} [returning] [VInt 7] []),
       snd (dispatch run {[3]} [] [VInt 7] [])
       ++ snd (WeakCallable_call run {[3]} dead_method [VInt 7] [])
       ++ snd (dispatch run {[3]} [returning] [VInt 7] []))
  ∧ (fst (fst (_execute run (busy two_subscribers))) = Return tt
     ∧ _messages (snd (fst (_execute run (busy two_subscribers)))) = []
     ∧ snd (_execute run (busy two_subscribers))
       = mjoin ((fun msg => snd (dispatch run (collected (busy two_subscribers))
                                          (subscribers_of (busy two_subscribers)
                                                          (msg_topic msg))
                                          (msg_args msg) (msg_kwargs msg)))
                  <$> _messages (busy two_subscribers)))
  ∧ _messages mixed = [msg7] ++ msg8 :: [msg9]
  ∧ ∃ w',
      _execute run mixed
      = (Raise (Exception_ "boom"), w',
         mjoin ((fun msg' => snd (dispatch run (collected mixed)
                                           (subscribers_of mixed (msg_topic msg'))
                                           (msg_args msg') (msg_kwargs msg')))
                  <$> [msg7])
         ++ snd (dispatch run (collected mixed) [] [VInt 8] [])
         ++ snd (WeakCallable_call run (collected mixed) raising [VInt 8] []))
      ∧ _messages w' = [msg9]
      ∧ ∀ k, subscribers_of w' k = subscribers_of mixed k.
Proof.
  cbn zeta.
  destruct (execute_silences_ReferenceError_only run) as (HA & HB & HC & HD).
  split; [|split; [|split; [|split]]].
  - apply HA. apply Exists_cons_hd. apply elem_of_singleton. reflexivity.
  - apply HB; [constructor|reflexivity].
  - apply HC. vm_compute. repeat constructor.
  - reflexivity.
  - apply (HD mixed
              [{| msg_topic := 0; msg_args := [VInt 7]; msg_kwargs := [] |}]
              {| msg_topic := 1; msg_args := [VInt 8]; msg_kwargs := [] |}
              [{| msg_topic := 0; msg_args := [VInt 9]; msg_kwargs := [] |}]
              []
              (WeakCallable_init 1 (Function 1) true)
              []
              (Exception_ "boom")).
    + reflexivity.
    + vm_compute. repeat constructor.
    + reflexivity.
    + constructor.
    + reflexivity.
    + reflexivity.
Defined.

(** C6 at work: 7 and 8 are queued for topic 0, then 9 is sent to topic 1,
    which nobody subscribed to. *)
Lemma send_without_subscribers_session :
  let w := busy two_subscribers in
  subscribers_of w 1 = []
  ∧ fst (fst (_execute run w)) = Return tt
  ∧ ∃ w1,
      send 1 [VInt 9] [] w = (Return tt, w1)
      ∧ _messages w1
        = _messages w ++ [{| msg_topic := 1; msg_args := [VInt 9]; msg_kwargs := [] |}]
      ∧ ∃ w2,
          _execute run w1 = (Return tt, w2, snd (_execute run w))
          ∧ _messages w2 = []
          ∧ ∀ k, subscribers_of w2 k = subscribers_of w k.
Proof.
  cbn zeta.
  assert (H1 : subscribers_of (busy two_subscribers) 1 = []) by reflexivity.
  assert (H2 : fst (fst (_execute run (busy two_subscribers))) = Return tt)
    by (vm_compute; reflexivity).
  split; [exact H1|]. split; [exact H2|].
  destruct (send_without_subscribers run 1 [VInt 9] [] (busy two_subscribers))
    as (w1 & Hsend & Hq & Htick).
  exists w1. split; [exact Hsend|]. split; [exact Hq|].
  exact (Htick H1 H2).
Defined.

(** C6 as the specification has it does not hold on a busy messenger: in
    [busy three_subscribers] nobody subscribed to topic 1 and [send] of 9 to
    it returns, but the tick that follows ends with the exception of
    function 1, raised for the message 7 queued before, and the message to
    topic 1 is still in the queue, behind the message 8. *)
Lemma send_without_subscribers_stays_queued :
  let w := busy three_subscribers in
  let w1 := snd (send 1 [VInt 9] [] w) in
  subscribers_of w 1 = []
  ∧ fst (send 1 [VInt 9] [] w) = Return tt
  ∧ fst (fst (_execute run w1)) = Raise (Exception_ "boom")
  ∧ _messages (snd (fst (_execute run w1)))
    = [{| msg_topic := 0; msg_args := [VInt 8]; msg_kwargs := [] |};
       {| msg_topic := 1; msg_args := [VInt 9]; msg_kwargs := [] |}]
  ∧ _messages (snd (fst (_execute run w1))) ≠ [].
Proof.
  cbn zeta. split; [reflexivity|]. split; [reflexivity|].
  split; [vm_compute; reflexivity|].
  assert (H : _messages (snd (fst (_execute run
                (snd (send 1 [VInt 9] [] (busy three_subscribers))))))
              = [{| msg_topic := 0; msg_args := [VInt 8]; msg_kwargs := [] |};
                 {| msg_topic := 1; msg_args := [VInt 9]; msg_kwargs := [] |}])
    by (vm_compute; reflexivity).
  split; [exact H|]. rewrite H. discriminate.
Qed.

(** C1 as the specification has it does not hold in every world; the
    handler is method 5 of object 6, subscribed to topic 0, and 9 is sent.
    After function 1, which raises, the handler is not called at all; a
    handler that was subscribed already is called twice; and with a message
    9 waiting in the queue the handler is called twice in the tick. *)
Lemma subscribed_handler_not_always_once :
  let h := Method 5 6 in
  let calls (w : World) :=
    length (filter (fun e => e = invocation h [VInt 9] [])
                   (snd (_execute run (snd (send 0 [VInt 9] [] (subscribe 0 h w)))))) in
  (fst (fst (_execute run (snd (send 0 [VInt 9] []
                                     (subscribe 0 h (subscribe 0 (Function 1) init))))))
   = Raise (Exception_ "boom")
   ∧ calls (subscribe 0 (Function 1) init) = 0)
  ∧ calls (subscribe 0 h init) = 2
  ∧ calls (snd (send 0 [VInt 9] [] init)) = 2.
Proof.
  cbn zeta. split; [split|split]; vm_compute; reflexivity.
Qed.

End SessionFacts.

(* ===================================================================== *)
(** * Properties of the view-model classes                                *)
(* ===================================================================== *)

Section ViewModelFacts.
Import Py ViewModel.


Lemma list_call_append (x : ref) (l : list ref) :
  list_call "append" x l = (Return tt, l ++ [x]).
Proof. reflexivity. Qed.

(** [add_PropertyChanged] does register the handler. *)
Lemma add_PropertyChanged_registers (handler : ref) (self : Instance) :
  add_PropertyChanged handler self
  = (Return tt, {| attrs := attrs self;
                   property_chaged_handlers :=
                     property_chaged_handlers self ++ [handler] |}).
Proof. unfold add_PropertyChanged. rewrite list_call_append. reflexivity. Qed.


(** C10: [extend] adds the first item of a non-empty sequence and nothing
    else, whatever follows it; it adds nothing for an empty sequence; it
    returns [None] in both cases. *)
Theorem extend_adds_first_item_only (self : List) :
  (∀ item rest, extend (item :: rest) self = (VNone, self ++ [item]))
  ∧ extend [] self = (VNone, self).
Proof. split; [intros item rest|]; reflexivity. Qed.

Section Notify.
Variable handle : ref -> option string -> result unit.

Lemma raised_call_handlers (handlers : list ref) (n : option string) :
  raised (snd (call_handlers handle handlers n)) = [].
Proof.
  induction handlers as [|h rest IH]; cbn; [reflexivity|].
  destruct (handle h n); cbn; [|reflexivity].
  destruct (call_handlers handle rest n) as [r ev]; cbn in *. exact IH.
Qed.

Lemma raised_RaisePropertyChanged (self : Instance) (n : option string) :
  raised (snd (RaisePropertyChanged handle self n)) = [n].
Proof.
  unfold RaisePropertyChanged.
  pose proof (raised_call_handlers (property_chaged_handlers self) n) as H.
  destruct (call_handlers handle (property_chaged_handlers self) n) as [r ev].
  cbn in *. rewrite H. reflexivity.
Qed.

(** C2: a write of a value equal to the current one returns with the
    instance untouched and nothing called; a write of an unequal value
    stores it in the slot of the property and calls [RaisePropertyChanged]
    once, with the name of the property. *)
Theorem Notifiable_set_notifies_once (d : Notifiable) (obj : Instance) (v : value) :
  let '(r, obj', evs) := Notifiable_set handle d obj v in
  if py_eq (Notifiable_get d obj) v
  then r = Return tt ∧ obj' = obj ∧ evs = []
  else attrs obj' = <[slot d := v]> (attrs obj)
       ∧ property_chaged_handlers obj' = property_chaged_handlers obj
       ∧ Notifiable_get d obj' = v
       ∧ raised evs = [name d].
Proof.
  unfold Notifiable_set, Notifiable_get, py_ne.
  destruct (py_eq (default (initial d) (attrs obj !! slot d)) v); cbn.
  - auto.
  - match goal with
    | |- context [RaisePropertyChanged handle ?o ?n] =>
        pose proof (raised_RaisePropertyChanged o n) as H;
        destruct (RaisePropertyChanged handle o n) as [r ev]
    end.
    cbn in *. rewrite lookup_insert_eq. auto.
Qed.

End Notify.

(** The descriptor keeps one [Command] for itself, not one per instance. The
    first read, through instance [a], allocates the command; a read through
    any instance [b] afterwards returns that very command, allocates
    nothing, and the command still runs its handler on [a]. *)
Lemma command_get_shared_by_instances
        (handler : ref) (can_exec : option ref) (a b : option ref) (st : Store) :
  let d := command_init (Some handler) can_exec in
  let '(r1, d1, st1) := command_get a d st in
  let '(r2, d2, st2) := command_get b d1 st1 in
  r1 = Return (next_ref st)
  ∧ r2 = r1
  ∧ st2 = st1
  ∧ bound_to st2 (next_ref st) = Some a.
Proof.
  cbn. unfold bound_to; cbn. rewrite lookup_insert_eq. auto.
Qed.

(** C3, on the code: a command descriptor read through instance 1 and then
    through instance 2 gives the same command both times, and that command
    is bound to instance 1; the claim asks for two commands, the second
    bound to instance 2. *)
Example command_get_two_instances :
  let d := command_init (Some 7) None in
  let '(r1, d1, st1) := command_get (Some 1) d empty_store in
  let '(r2, d2, st2) := command_get (Some 2) d1 st1 in
  r1 = Return 0 ∧ r2 = Return 0 ∧ bound_to st2 0 = Some (Some 1).
Proof. vm_compute. auto. Qed.

End ViewModelFacts.

(* ===================================================================== *)
(** * Properties of the calculator                                        *)
(* ===================================================================== *)

Section CalcFacts.
Import Py Builtins Calc.

(** C8: from the initial state the keys 5, +, 3, = are all handled without
    an exception and leave the string 8.0 in [outputText]. *)
Theorem five_plus_three :
  let '(r, vm) := press_all [Digit "5"; Operator "+"; Digit "3"; Operator "="] initial in
  r = Return tt ∧ outputText vm = VStr "8.0".
Proof. vm_compute. split; reflexivity. Qed.

(** The builtins on a few inputs. *)
Example float_accepts :
  float_of_str "5" = Return (FFin false 5629499534213120 (-50))
  ∧ float_of_str " .5e1 " = Return (FFin false 5629499534213120 (-50))
  ∧ float_of_str "-inf" = Return (FInf true)
  ∧ float_of_str "1e400" = Return (FInf false)
  ∧ float_of_str "1e-400" = Return (FFin false 0 (-1074)).
Proof. vm_compute. repeat split. Qed.

Example float_rejects :
  float_of_str "" = Raise ValueError
  ∧ float_of_str "." = Raise ValueError
  ∧ float_of_str "5+" = Raise ValueError
  ∧ float_of_str "1e" = Raise ValueError
  ∧ float_of_str "1.2.3" = Raise ValueError.
Proof. vm_compute. repeat split. Qed.

Example str_of_Fraction :
  (str_of_float <$> [FFin false 1 3; FFin false 1 (-1); FFin true 5 (-1)]
   = ["8.0"; "0.5"; "-2.5"]%string)
  ∧ float_of_Fraction (1 # 3) = Return (FFin false 6004799503160661 (-54))
  ∧ str_of_float (FFin false 6004799503160661 (-54)) = "0.333333333333"%string
  ∧ str_of_float (FFin false (10 ^ 11) 0) = "100000000000.0"%string
  ∧ str_of_float (FFin false (10 ^ 12) 0) = "1e+12"%string
  ∧ str_of_float (FFin false 1 (-14)) = "6.103515625e-05"%string
  ∧ float_of_Fraction (10 ^ 400 # 1) = Raise OverflowError.
Proof. vm_compute. repeat split. Qed.

(** The setters, field by field. *)
Lemma py_eq_VStr (v : value) (x : string) : py_eq v (VStr x) = true -> v = VStr x.
Proof.
  destruct v as [| b | z | y | r]; cbn; try discriminate.
  intros H. apply String.eqb_eq in H. congruence.
Qed.

Lemma inputText_set_inputText (x : string) (s : MyViewModel) :
  inputText (set_inputText x s) = x.
Proof.
  unfold set_inputText, py_ne.
  destruct (py_eq (VStr (inputText s)) (VStr x)) eqn:E; cbn; [|reflexivity].
  apply py_eq_VStr in E. congruence.
Qed.

Lemma outputText_set_outputText_str (x : string) (s : MyViewModel) :
  outputText (set_outputText (VStr x) s) = VStr x.
Proof.
  unfold set_outputText, py_ne.
  destruct (py_eq (outputText s) (VStr x)) eqn:E; cbn; [|reflexivity].
  apply py_eq_VStr in E. exact E.
Qed.

Lemma inputText_set_outputText (v : value) (s : MyViewModel) :
  inputText (set_outputText v s) = inputText s.
Proof. unfold set_outputText. destruct (py_ne _ _); reflexivity. Qed.

Lemma prevOperator_set_outputText (v : value) (s : MyViewModel) :
  prevOperator (set_outputText v s) = prevOperator s.
Proof. unfold set_outputText. destruct (py_ne _ _); reflexivity. Qed.

Lemma prevOperator_set_inputText (x : string) (s : MyViewModel) :
  prevOperator (set_inputText x s) = prevOperator s.
Proof. unfold set_inputText. destruct (py_ne _ _); reflexivity. Qed.

Create Rewrite HintDb setters.
Hint Rewrite inputText_set_inputText outputText_set_outputText_str
     inputText_set_outputText prevOperator_set_outputText
     prevOperator_set_inputText : setters.

(** The state in which [operatorCommand] computes: [outputText] is the
    integer 0 if it was empty, the rest is as before. *)
Lemma outputText_0_frame (s : MyViewModel) :
  let s1 := if is_empty_str (outputText s) then set_outputText (VInt 0) s else s in
  inputText s1 = inputText s ∧ prevOperator s1 = prevOperator s.
Proof.
  cbn zeta. destruct (is_empty_str (outputText s)); autorewrite with setters; auto.
Qed.

(** The last step of [operatorCommand]: whether the conversion to a float
    raises or not, the input is empty and the key is the pending operator
    afterwards. *)
Ltac computed_case :=
  match goal with
  | |- context [operators ?k] => destruct (operators k) as [op|]; [|discriminate]
  end;
  match goal with
  | op : Q -> string -> result Q |- context [?f ?a ?b] =>
      constr_eq f op; destruct (op a b) as [q|e]; [|discriminate]
  end;
  match goal with
  | |- context [float_of_Fraction ?q'] =>
      destruct (float_of_Fraction q') as [y|e]; [|discriminate]
  end;
  intros [= <-]; autorewrite with setters; auto.

(** An operator key other than AC and C that is handled without an exception
    leaves the input empty and a pending operator: itself, or the division
    whose divisor was zero. *)
Lemma operatorCommand_returns (param : string) (s : MyViewModel) :
  String.eqb "AC" param = false ->
  contains_C param = false ->
  ∀ s', operatorCommand param s = (Return tt, s') ->
  inputText s' = "" ∧ (prevOperator s' = param ∨ prevOperator s' = "/").
Proof.
  intros HAC HC s'. unfold operatorCommand. rewrite HAC, HC.
  destruct (is_empty_str (VStr (inputText s))) eqn:Hin.
  { intros [= <-]. cbn in *. apply String.eqb_eq in Hin. auto. }
  set (s1 := if is_empty_str (outputText s) then set_outputText (VInt 0) s else s).
  destruct (String.eqb (prevOperator s1) "/") eqn:Hdiv; [|computed_case].
  apply String.eqb_eq in Hdiv.
  destruct (float_of_str (inputText s1)) as [x|e]; [|discriminate].
  destruct (float_is_zero x); [|computed_case].
  intros [= <-]. autorewrite with setters. auto.
Qed.

(** The digit 0 typed into an empty input is accepted. *)
Lemma addDigit_0_on_empty (s : MyViewModel) :
  inputText s = "" ->
  ∃ s', addDigitCommand "0" s = (Return tt, s')
        ∧ inputText s' = "0" ∧ prevOperator s' = prevOperator s.
Proof.
  intros Hin. unfold addDigitCommand. rewrite Hin. cbn.
  eexists; split; [reflexivity|]. autorewrite with setters. auto.
Qed.

(** An operator key pressed on input 0 while a division is pending clears
    both texts and raises nothing. *)
Lemma operatorCommand_divide_by_zero (param : string) (s : MyViewModel) :
  String.eqb "AC" param = false ->
  contains_C param = false ->
  inputText s = "0" -> prevOperator s = "/" ->
  ∃ s', operatorCommand param s = (Return tt, s')
        ∧ inputText s' = "" ∧ outputText s' = VStr "".
Proof.
  intros HAC HC Hin Hop. unfold operatorCommand. rewrite HAC, HC, Hin. cbn.
  destruct (outputText_0_frame s) as [Hin1 Hop1]. cbn zeta in Hin1, Hop1.
  rewrite Hop1, Hop, Hin1, Hin. cbn.
  eexists; split; [reflexivity|]. autorewrite with setters. auto.
Qed.

(** C7, amended: from every state in which the key / is handled without an
    exception, the keys /, 0, = are all handled without an exception and
    leave both [inputText] and [outputText] empty: the division by zero is
    absorbed. *)
Theorem divide_by_zero_is_absorbed (s : MyViewModel) :
  fst (operatorCommand "/" s) = Return tt ->
  ∃ s', press_all [Operator "/"; Digit "0"; Operator "="] s = (Return tt, s')
        ∧ inputText s' = "" ∧ outputText s' = VStr "".
Proof.
  intros H. cbn [press_all press].
  destruct (operatorCommand "/" s) as [r s1] eqn:E1. cbn in H. subst r.
  destruct (operatorCommand_returns "/" s eq_refl eq_refl s1 E1) as [Hin Hop].
  assert (Hop' : prevOperator s1 = "/") by (destruct Hop; assumption).
  destruct (addDigit_0_on_empty s1 Hin) as (s2 & E2 & Hin2 & Hop2).
  rewrite E2.
  destruct (operatorCommand_divide_by_zero "=" s2 eq_refl eq_refl Hin2) as (s3 & E3 & H3).
  { congruence. }
  rewrite E3. eauto.
Qed.

(** The theorem at the initial state. *)
Lemma divide_by_zero_is_absorbed_initially :
  fst (operatorCommand "/" initial) = Return tt
  ∧ ∃ s', press_all [Operator "/"; Digit "0"; Operator "="] initial = (Return tt, s')
          ∧ inputText s' = "" ∧ outputText s' = VStr "".
Proof.
  split; [reflexivity|].
  apply (divide_by_zero_is_absorbed initial). reflexivity.
Defined.

(** C7 as stated fails at states that the keys lead to. With digits and
    operators of the calculator: after 10^200 x 10^200 is typed, the key /
    makes the product 10^400 the accumulator, and its conversion to a float
    raises [OverflowError] out of [operatorCommand]. With an operator key
    that [operators] does not have, here %: after % and 5 the key / raises
    [KeyError] before anything is cleared, 0 is appended to the input, the
    key = raises [KeyError] again, and the input is left at 50. *)
Lemma divide_by_zero_not_from_any_state :
  (let '(r, s) := press_all (ten_to_the_200 ++ [Operator "x"] ++ ten_to_the_200) initial in
   r = Return tt
   ∧ fst (operatorCommand "/" s) = Raise OverflowError
   ∧ fst (press_all [Operator "/"; Digit "0"; Operator "="] s) = Raise OverflowError)
  ∧ (let '(r, s) := press_all [Operator "%"; Digit "5"] initial in
     r = Return tt
     ∧ fst (press_all [Operator "/"; Digit "0"; Operator "="] s) = Raise KeyError
     ∧ let '(rs, s') := press_each [Operator "/"; Digit "0"; Operator "="] s in
       rs = [Raise KeyError; Return tt; Raise KeyError] ∧ inputText s' = "50").
Proof. vm_compute. repeat split. Qed.

End CalcFacts.

(* ===================================================================== *)
(** * More on the messenger: order, routing, collection                   *)
(* ===================================================================== *)

Section BusFacts.
Import Py Messenger Registry.

Variable run : ref -> list value -> kwargs -> result unit.

(** ** How the operations change the subscriber lists *)

Lemma subscribers_of_subscribe (m k : topic) (h : callable) (w : World) :
  subscribers_of (subscribe m h w) k
  = if decide (k = m)
    then subscribers_of w m ++ [WeakCallable_init (next_id w) h true]
    else subscribers_of w k.
Proof.
  unfold subscribe.
  pose proof (getitem_fst (_subscribers w) m) as Hf.
  pose proof (getitem_snd (_subscribers w) m k) as Hs.
  destruct (getitem (_subscribers w) m) as [l d]. cbn in Hf, Hs. subst l.
  unfold subscribers_of; cbn. case_decide as Hk.
  - subst k. rewrite lookup_insert_eq. reflexivity.
  - rewrite lookup_insert_ne by congruence. exact Hs.
Qed.

Lemma collected_subscribe (m : topic) (h : callable) (w : World) :
  collected (subscribe m h w) = collected w.
Proof. unfold subscribe. destruct (getitem _ m). reflexivity. Qed.

Lemma next_id_subscribe (m : topic) (h : callable) (w : World) :
  next_id (subscribe m h w) = S (next_id w).
Proof. unfold subscribe. destruct (getitem _ m). reflexivity. Qed.

Lemma messages_subscribe (m : topic) (h : callable) (w : World) :
  _messages (subscribe m h w) = _messages w.
Proof. unfold subscribe. destruct (getitem _ m). reflexivity. Qed.

Lemma subscribers_of_send (m k : topic) (args : list value) (kw : kwargs) (w : World) :
  subscribers_of (snd (send m args kw w)) k = subscribers_of w k.
Proof. reflexivity. Qed.

Lemma subscribers_of_unsubscribe (m k : topic) (h : callable) (w : World) :
  allocated w ->
  subscribers_of (snd (unsubscribe m h w)) k = subscribers_of w k.
Proof.
  intros Hw.
  destruct (list_remove_fresh (WeakCallable_init (next_id w) h false)
                              (subscribers_of w m)) as [_ Hrm].
  { eapply Forall_impl; [apply (allocated_lookup w m Hw)|].
    cbn. intros wc Hlt. destruct h; exact Hlt. }
  unfold unsubscribe.
  pose proof (getitem_fst (_subscribers w) m) as Hf.
  pose proof (getitem_snd (_subscribers w) m k) as Hs.
  destruct (getitem (_subscribers w) m) as [l d]. cbn in Hf, Hs.
  fold (subscribers_of w m) in Hf. subst l. rewrite Hrm. exact Hs.
Qed.

Lemma subscribers_of_execute (k : topic) (w : World) :
  subscribers_of (snd (fst (_execute run w))) k = subscribers_of w k.
Proof.
  unfold _execute, subscribers_of.
  pose proof (drain_lookup run (collected w) (_messages w) (_subscribers w) k) as H.
  destruct (drain run (collected w) (_subscribers w) (_messages w))
    as [[[r d] q] ev]. exact H.
Qed.

(** ** The calls of a tick *)

(** The calls that the dispatch of one message makes. *)
Lemma drain_events (dead : gset ref) (q : list message) :
  ∀ d : gmap topic (list WeakCallable),
  Forall (fun msg => Forall (fun s => passes run dead (msg_args msg) (msg_kwargs msg) s = true)
                            (default [] (d !! msg_topic msg))) q ->
  (drain run dead d q).2
  = mjoin ((fun msg => snd (dispatch run dead (default [] (d !! msg_topic msg))
                                     (msg_args msg) (msg_kwargs msg))) <$> q).
Proof.
  induction q as [|msg q IH]; intros d Hq; cbn; [reflexivity|].
  apply Forall_cons in Hq as [Hmsg Hq].
  pose proof (getitem_fst d (msg_topic msg)) as Hf.
  pose proof (getitem_snd d (msg_topic msg)) as Hs.
  destruct (getitem d (msg_topic msg)) as [l d']. cbn in Hf, Hs. subst l.
  pose proof (dispatch_passes run dead _ _ _ Hmsg) as Hd.
  destruct (dispatch run dead (default [] (d !! msg_topic msg))
                     (msg_args msg) (msg_kwargs msg)) as [r ev].
  cbn in Hd. subst r.
  specialize (IH d').
  destruct (drain run dead d' q) as [[[r1 d1] q'] ev1]. cbn in *.
  rewrite IH.
  - do 2 f_equal. apply list_fmap_ext. intros _ msg' _. cbn. rewrite Hs. reflexivity.
  - eapply Forall_impl; [exact Hq|]. cbn. intros msg'. rewrite Hs. auto.
Qed.

(** X1: when no call of the tick raises anything but [ReferenceError], the
    tick makes, message after message in the order they were sent, the
    calls of the dispatch of that message to the subscribers of its own
    topic, and no other call. *)
Theorem execute_in_order_sent (w : World) :
  Forall (fun msg =>
            Forall (fun s => passes run (collected w) (msg_args msg) (msg_kwargs msg) s = true)
                   (subscribers_of w (msg_topic msg)))
         (_messages w) ->
  snd (_execute run w)
  = mjoin ((fun msg => snd (dispatch run (collected w)
                                     (subscribers_of w (msg_topic msg))
                                     (msg_args msg) (msg_kwargs msg)))
             <$> _messages w).
Proof.
  intros Hq. unfold _execute.
  pose proof (drain_events (collected w) (_messages w) (_subscribers w) Hq) as H.
  destruct (drain run (collected w) (_subscribers w) (_messages w))
    as [[[r d] q] ev]. exact H.
Qed.

(** A tick with one message in the queue. *)
Lemma execute_single (w : World) (msg : message) :
  _messages w = [msg] ->
  fst (fst (_execute run w))
  = fst (dispatch run (collected w) (subscribers_of w (msg_topic msg))
                  (msg_args msg) (msg_kwargs msg))
  ∧ snd (_execute run w)
    = snd (dispatch run (collected w) (subscribers_of w (msg_topic msg))
                    (msg_args msg) (msg_kwargs msg))
  ∧ _messages (snd (fst (_execute run w))) = [].
Proof.
  intros Hq. unfold _execute, subscribers_of. rewrite Hq. cbn [drain].
  pose proof (getitem_fst (_subscribers w) (msg_topic msg)) as Hf.
  destruct (getitem (_subscribers w) (msg_topic msg)) as [l d]. cbn in Hf. subst l.
  destruct (dispatch run (collected w) (default [] (_subscribers w !! msg_topic msg))
                     (msg_args msg) (msg_kwargs msg)) as [[[]|e] ev]; cbn.
  - rewrite app_nil_r. auto.
  - auto.
Qed.

(** X2: the subscribers are looked up when the tick runs, not when the
    message is sent. On a messenger whose queue is empty, when every
    subscriber already on the topic returns or raises [ReferenceError] for
    the message, a handler whose target is alive and that subscribes after
    [send] and before the tick is called with the message, after the
    calls of the earlier subscribers, and the tick leaves the queue
    empty. *)
Theorem late_subscriber_is_called
        (m : topic) (h : callable) (args : list value) (kw : kwargs) (w : World) :
  _messages w = [] ->
  Forall (fun o => o ∉ collected w) (referents h) ->
  Forall (fun s => passes run (collected w) args kw s = true) (subscribers_of w m) ->
  let w1 := subscribe m h (snd (send m args kw w)) in
  snd (_execute run w1)
  = snd (dispatch run (collected w) (subscribers_of w m) args kw)
    ++ [invocation h args kw]
  ∧ _messages (snd (fst (_execute run w1))) = [].
Proof.
  intros Hq Halive Hpass w1.
  destruct (execute_single w1 {| msg_topic := m; msg_args := args; msg_kwargs := kw |})
    as (_ & Hev & Hq1).
  { subst w1. rewrite messages_subscribe, send_appends. cbn. rewrite Hq. reflexivity. }
  split; [|exact Hq1]. rewrite Hev. cbn [msg_topic msg_args msg_kwargs].
  subst w1. rewrite subscribers_of_subscribe, decide_True by reflexivity.
  rewrite collected_subscribe, subscribers_of_send, send_appends. cbn [snd collected next_id].
  rewrite dispatch_app by exact Hpass. cbn [snd]. f_equal.
  rewrite dispatch_cons.
  unfold passes. rewrite (call_alive run _ _ _ _ _ _ Halive). cbn.
  destruct (run _ _ kw) as [u|e]; [|destruct (is_ReferenceError e)]; reflexivity.
Qed.

(** X3: subscriptions are not deduplicated. On a messenger whose queue is
    empty, when every subscriber already on the topic returns or raises
    [ReferenceError] for the message, a handler whose target is alive,
    whose call returns and that is subscribed twice to the topic is called
    twice for one message, after the calls of the earlier subscribers. *)
Theorem subscribed_twice_called_twice
        (m : topic) (h : callable) (args : list value) (kw : kwargs) (w : World) :
  _messages w = [] ->
  Forall (fun o => o ∉ collected w) (referents h) ->
  Forall (fun s => passes run (collected w) args kw s = true) (subscribers_of w m) ->
  run (ev_func (invocation h args kw)) (ev_args (invocation h args kw)) kw = Return tt ->
  let w1 := snd (send m args kw (subscribe m h (subscribe m h w))) in
  _execute run w1
  = (Return tt, snd (fst (_execute run w1)),
     snd (dispatch run (collected w) (subscribers_of w m) args kw)
     ++ [invocation h args kw; invocation h args kw]).
Proof.
  intros Hq Halive Hpass Hret. cbn zeta.
  remember (snd (send m args kw (subscribe m h (subscribe m h w)))) as w1 eqn:Ew1.
  assert (Hq1 : _messages w1
                = [{| msg_topic := m; msg_args := args; msg_kwargs := kw |}]).
  { rewrite Ew1, send_appends. cbn [snd _messages].
    rewrite !messages_subscribe, Hq. reflexivity. }
  assert (Hsubs : subscribers_of w1 m
                  = subscribers_of w m
                    ++ [WeakCallable_init (next_id w) h true;
                        WeakCallable_init (S (next_id w)) h true]).
  { rewrite Ew1, subscribers_of_send, !subscribers_of_subscribe.
    rewrite !decide_True by reflexivity.
    rewrite next_id_subscribe, <- app_assoc. reflexivity. }
  assert (Hc : collected w1 = collected w).
  { rewrite Ew1, send_appends. cbn [snd collected].
    rewrite !collected_subscribe. reflexivity. }
  destruct (execute_single w1 _ Hq1) as (Hr & Hev & _).
  cbn [msg_topic msg_args msg_kwargs] in Hr, Hev.
  rewrite Hsubs, Hc in Hr, Hev.
  rewrite dispatch_app in Hr, Hev by exact Hpass. cbn [fst snd] in Hr, Hev.
  rewrite !dispatch_cons in Hr, Hev. unfold passes in Hr, Hev.
  rewrite !(call_alive run _ _ _ _ _ _ Halive) in Hr, Hev.
  cbn [fst snd] in Hr, Hev. rewrite Hret in Hr, Hev.
  cbn [fst snd dispatch app] in Hr, Hev.
  destruct (_execute run w1) as [[r w2] ev]. cbn [fst snd] in *. subst r ev.
  reflexivity.
Qed.

(** X4: topics are separate: a subscription to one topic changes nothing
    to what a tick does for a message sent to another one. *)
Theorem other_topic_not_called
        (m1 m2 : topic) (h : callable) (args : list value) (kw : kwargs) (w : World) :
  m1 ≠ m2 ->
  _messages w = [] ->
  let w1 := snd (send m2 args kw (subscribe m1 h w)) in
  let w0 := snd (send m2 args kw w) in
  fst (fst (_execute run w1)) = fst (fst (_execute run w0))
  ∧ snd (_execute run w1) = snd (_execute run w0)
  ∧ snd (_execute run w1)
    = snd (dispatch run (collected w) (subscribers_of w m2) args kw).
Proof.
  intros Hne Hq w1 w0.
  destruct (execute_single w1 {| msg_topic := m2; msg_args := args; msg_kwargs := kw |})
    as (Hr1 & Hev1 & _).
  { subst w1. rewrite send_appends. cbn [snd _messages].
    rewrite messages_subscribe, Hq. reflexivity. }
  destruct (execute_single w0 {| msg_topic := m2; msg_args := args; msg_kwargs := kw |})
    as (Hr0 & Hev0 & _).
  { subst w0. rewrite send_appends. cbn. rewrite Hq. reflexivity. }
  cbn [msg_topic msg_args msg_kwargs] in *.
  assert (Hs1 : subscribers_of w1 m2 = subscribers_of w m2).
  { subst w1. rewrite subscribers_of_send, subscribers_of_subscribe.
    rewrite decide_False by congruence. reflexivity. }
  assert (Hc1 : collected w1 = collected w).
  { subst w1. rewrite send_appends. cbn [snd collected].
    apply collected_subscribe. }
  rewrite Hs1, Hc1 in Hr1, Hev1.
  change (subscribers_of w0 m2) with (subscribers_of w m2) in *.
  change (collected w0) with (collected w) in *.
  rewrite Hr1, Hr0, Hev1, Hev0. auto.
Qed.

(** ** The stored wrappers *)

Lemma well_formed_sublist (w w' : World) :
  next_id w ≤ next_id w' ->
  (∀ k, subscribers_of w' k `sublist_of` subscribers_of w k) ->
  well_formed w -> well_formed w'.
Proof.
  intros Hn Hsub (H1 & H2 & H3). split; [|split].
  - intros k. apply Forall_forall. intros x Hx.
    apply (elem_of_sublist _ _ _ Hx) in Hsub.
    specialize (H1 k). rewrite Forall_forall in H1.
    destruct (H1 x Hsub). split; [lia|assumption].
  - intros k. eapply sublist_NoDup; [apply (H2 k)|].
    apply fmap_sublist, Hsub.
  - intros k1 k2 x y Hx Hy. apply (H3 k1 k2); eapply elem_of_sublist; eauto.
Qed.

Lemma next_id_unsubscribe (m : topic) (h : callable) (w : World) :
  next_id (snd (unsubscribe m h w)) = S (next_id w).
Proof.
  unfold unsubscribe. destruct (getitem _ m) as [l d].
  destruct (list_remove _ l); reflexivity.
Qed.

Lemma next_id_execute (w : World) :
  next_id (snd (fst (_execute run w))) = next_id w.
Proof.
  unfold _execute.
  destruct (drain run (collected w) (_subscribers w) (_messages w))
    as [[[r d] q] ev]. reflexivity.
Qed.

Lemma well_formed_subscribe (m : topic) (h : callable) (w : World) :
  well_formed w -> well_formed (subscribe m h w).
Proof.
  intros (H1 & H2 & H3).
  assert (Hnew : wc_id (WeakCallable_init (next_id w) h true) = next_id w
                 ∧ _ext_on_collect (WeakCallable_init (next_id w) h true) = true)
    by (destruct h; auto).
  destruct Hnew as [Hid Hext].
  assert (Hold : ∀ k x, x ∈ subscribers_of w k -> wc_id x < next_id w).
  { intros k x Hx. specialize (H1 k). rewrite Forall_forall in H1.
    apply (H1 x Hx). }
  assert (Hmem : ∀ k x, x ∈ subscribers_of (subscribe m h w) k ->
                        x ∈ subscribers_of w k
                        ∨ x = WeakCallable_init (next_id w) h true).
  { intros k x. rewrite subscribers_of_subscribe. case_decide; [subst k|auto].
    rewrite elem_of_app, list_elem_of_singleton. auto. }
  split; [|split].
  - intros k. apply Forall_forall. intros x Hx. rewrite next_id_subscribe.
    destruct (Hmem k x Hx) as [Hx'| ->].
    + specialize (H1 k). rewrite Forall_forall in H1.
      destruct (H1 x Hx'). split; [lia|assumption].
    + rewrite Hid. split; [lia|assumption].
  - intros k. rewrite subscribers_of_subscribe. case_decide; [subst k|apply H2].
    rewrite fmap_app. apply NoDup_app. split; [apply H2|]. split.
    + intros i Hi. cbn. rewrite list_elem_of_singleton, Hid. intros ->.
      apply list_elem_of_fmap in Hi as (x & Hi & Hx).
      apply Hold in Hx. lia.
    + cbn. apply NoDup_singleton.
  - intros k1 k2 x y Hx Hy Hxy.
    destruct (Hmem k1 x Hx) as [Hx'| ->], (Hmem k2 y Hy) as [Hy'| ->].
    + exact (H3 k1 k2 x y Hx' Hy' Hxy).
    + apply Hold in Hx'. rewrite Hid in Hxy. lia.
    + apply Hold in Hy'. rewrite Hid in Hxy. lia.
    + reflexivity.
Qed.

Lemma filter_all {A} (P : A -> Prop) `{!∀ x, Decision (P x)} (l : list A) :
  Forall P l -> filter P l = l.
Proof.
  induction 1 as [|x l Hx _ IH]; [reflexivity|].
  rewrite filter_cons_True by exact Hx. rewrite IH. reflexivity.
Qed.

Lemma filter_ext_elem {A} (P Q : A -> Prop)
      `{!∀ x, Decision (P x), !∀ x, Decision (Q x)} (l : list A) :
  (∀ x, x ∈ l -> P x ↔ Q x) -> filter P l = filter Q l.
Proof.
  induction l as [|x l IH]; intros Hl; [reflexivity|].
  rewrite !filter_cons.
  rewrite IH by (intros y Hy; apply Hl; right; exact Hy).
  apply decide_ext, Hl. left.
Qed.

(** The callback of one wrapper, list by list. *)
Lemma subscribers_of_on_collect (x : WeakCallable) (k : topic) (w : World) :
  subscribers_of (_on_collect x w) k
  = let l := subscribers_of w k in
    if wc_in x l then default l (list_remove x l) else l.
Proof.
  unfold subscribers_of, _on_collect. cbn. rewrite lookup_fmap.
  destruct (_subscribers w !! k); reflexivity.
Qed.

(** Among wrappers of distinct identities, [remove] takes out all there is
    to take out. *)
Lemma remove_is_filter (x : WeakCallable) (l : list WeakCallable) :
  NoDup (wc_id <$> l) ->
  (if wc_in x l then default l (list_remove x l) else l)
  = filter (fun y => wc_id y ≠ wc_id x) l.
Proof.
  induction l as [|y l IH]; [reflexivity|].
  rewrite fmap_cons, NoDup_cons. intros [Hy Hl]. specialize (IH Hl).
  unfold wc_in in *. cbn [existsb list_remove].
  unfold wc_eq at 1 3. destruct (Nat.eqb_spec (wc_id y) (wc_id x)) as [Heq|Hne]; cbn.
  - rewrite decide_False by (intros H; apply H; exact Heq).
    symmetry. apply filter_all.
    apply Forall_forall. intros z Hz Hzx. apply Hy.
    rewrite Heq, <- Hzx. apply list_elem_of_fmap_2, Hz.
  - rewrite decide_True by exact Hne.
    transitivity (y :: if existsb (fun z => wc_eq z x) l
                       then default l (list_remove x l) else l).
    + destruct (existsb (fun z => wc_eq z x) l);
        destruct (list_remove x l); reflexivity.
    + f_equal. exact IH.
Qed.

Lemma next_id_foldr_on_collect (w : World) (dead : list WeakCallable) :
  next_id (foldr _on_collect w dead) = next_id w.
Proof. induction dead as [|x dead IH]; [reflexivity|exact IH]. Qed.

Lemma collected_collect (o : ref) (w : World) :
  collected (gc_collect o w) = {[o]} ∪ collected w.
Proof.
  unfold gc_collect. induction (dying o w) as [|x dead IH]; [reflexivity|exact IH].
Qed.

Lemma subscribers_of_foldr_on_collect (w : World) (dead : list WeakCallable) (k : topic) :
  NoDup (wc_id <$> subscribers_of w k) ->
  subscribers_of (foldr _on_collect w dead) k
  = filter (fun y => wc_id y ∉ wc_id <$> dead) (subscribers_of w k).
Proof.
  intros Hnd. induction dead as [|x dead IH]; cbn [foldr].
  - symmetry. apply filter_all.
    apply Forall_forall. intros y _. cbn. apply not_elem_of_nil.
  - rewrite subscribers_of_on_collect. cbn zeta. rewrite remove_is_filter.
    + rewrite IH, list_filter_filter. apply list_filter_iff. intros y.
      rewrite fmap_cons, not_elem_of_cons. tauto.
    + rewrite IH. eapply sublist_NoDup; [exact Hnd|].
      apply fmap_sublist, sublist_filter.
Qed.

Lemma elem_of_subscribers_of (w : World) (k : topic) (x : WeakCallable) :
  x ∈ subscribers_of w k ↔ ∃ l, _subscribers w !! k = Some l ∧ x ∈ l.
Proof.
  unfold subscribers_of. destruct (_subscribers w !! k) as [l|]; cbn.
  - split; [eauto|]. intros (l' & [= <-] & H). exact H.
  - split; [intros H; inversion H|]. intros (l' & [=] & _).
Qed.

Lemma elem_of_dying (o : ref) (w : World) (x : WeakCallable) :
  x ∈ dying o w
  ↔ (_ext_on_collect x = true ∧ watched x = o) ∧ ∃ k, x ∈ subscribers_of w k.
Proof.
  unfold dying. rewrite list_elem_of_filter.
  apply and_iff_compat_l.
  rewrite list_elem_of_In, in_concat. split.
  - intros (l & Hl & Hx). apply list_elem_of_In in Hl, Hx.
    apply list_elem_of_fmap in Hl as ([k l'] & -> & Hkl).
    apply elem_of_map_to_list in Hkl. exists k.
    apply elem_of_subscribers_of. eauto.
  - intros (k & Hx). apply elem_of_subscribers_of in Hx as (l & Hl & Hx).
    exists l. split; apply list_elem_of_In; [|exact Hx].
    apply list_elem_of_fmap. exists (k, l). split; [reflexivity|].
    apply elem_of_map_to_list, Hl.
Qed.

(** The collection of an object, list by list: the wrappers that watch the
    object go, the others stay as they are. *)
Lemma subscribers_of_collect (o : ref) (k : topic) (w : World) :
  well_formed w ->
  subscribers_of (gc_collect o w) k
  = filter (fun wc => watched wc ≠ o) (subscribers_of w k).
Proof.
  intros (H1 & H2 & H3). unfold gc_collect.
  rewrite subscribers_of_foldr_on_collect by apply H2.
  change (subscribers_of {| _subscribers := _subscribers w; _messages := _messages w;
                            collected := {[o]} ∪ collected w; next_id := next_id w |} k)
    with (subscribers_of w k).
  apply filter_ext_elem. intros y Hy. split.
  - intros Hid Hw. apply Hid. apply list_elem_of_fmap_2, elem_of_dying.
    specialize (H1 k). rewrite Forall_forall in H1. destruct (H1 y Hy). eauto.
  - intros Hw Hid. apply list_elem_of_fmap in Hid as (x & Hxy & Hx).
    apply elem_of_dying in Hx as ((_ & Hwx) & (k' & Hx)).
    rewrite (H3 k k' y x Hy Hx Hxy) in Hw. contradiction.
Qed.

Lemma well_formed_collect (o : ref) (w : World) :
  well_formed w -> well_formed (gc_collect o w).
Proof.
  intros Hw. apply (well_formed_sublist w); [| |exact Hw].
  - unfold gc_collect. rewrite next_id_foldr_on_collect. reflexivity.
  - intros k. rewrite subscribers_of_collect by exact Hw. apply sublist_filter.
Qed.

Lemma well_formed_reachable (w : World) : reachable run w -> well_formed w.
Proof.
  induction 1 as [|w w' Hw IH Hstep].
  - split; [|split]; intros; cbn; try constructor.
    match goal with H : _ ∈ subscribers_of init _ |- _ => inversion H end.
  - destruct Hstep.
    + apply well_formed_subscribe, IH.
    + apply (well_formed_sublist w); [| |exact IH].
      * rewrite next_id_unsubscribe. lia.
      * intros k. rewrite subscribers_of_unsubscribe; [reflexivity|].
        apply (allocated_reachable run), Hw.
    + exact IH.
    + apply (well_formed_sublist w); [| |exact IH].
      * rewrite next_id_execute. lia.
      * intros k. rewrite subscribers_of_execute. reflexivity.
    + apply well_formed_collect, IH.
Qed.

(** X5: when the garbage collector reclaims an object, every topic loses
    the wrappers whose callback watches that object (the methods bound to
    it, the function it is) and keeps all the others, in their order. *)
Theorem collect_removes_watchers (o : ref) (k : topic) (w : World) :
  reachable run w ->
  subscribers_of (gc_collect o w) k
  = filter (fun wc => watched wc ≠ o) (subscribers_of w k).
Proof. intros Hw. apply subscribers_of_collect, well_formed_reachable, Hw. Qed.

(** X6: the function of a bound method carries no callback: when it is
    collected while the receiver lives, the wrapper stays subscribed, and
    every later call of it raises the [ReferenceError] that the tick
    silences. *)
Theorem dead_function_stays_subscribed
        (f o : ref) (k : topic) (wc : WeakCallable)
        (args : list value) (kw : kwargs) (w : World) :
  reachable run w ->
  wc ∈ subscribers_of w k ->
  target wc = Method f o ->
  f ≠ o ->
  wc ∈ subscribers_of (gc_collect f w) k
  ∧ WeakCallable_call run (collected (gc_collect f w)) wc args kw
    = (Raise ReferenceError, []).
Proof.
  intros Hw Hin Ht Hne. split.
  - rewrite (subscribers_of_collect f k w (well_formed_reachable w Hw)).
    apply list_elem_of_filter. split; [|exact Hin].
    unfold watched, target in *. destruct (_obj wc); congruence.
  - apply call_collected. rewrite Ht. apply Exists_cons_hd.
    rewrite collected_collect. apply elem_of_union_l, elem_of_singleton. reflexivity.
Qed.

(** ** The topics of the dictionary *)

Lemma dom_getitem (d : gmap topic (list WeakCallable)) (k : topic) :
  dom d ⊆ dom (snd (getitem d k)) ∧ k ∈ dom (snd (getitem d k)).
Proof.
  unfold getitem. destruct (d !! k) eqn:E; cbn.
  - split; [reflexivity|]. apply elem_of_dom. eauto.
  - split; [apply dom_insert_subseteq|].
    apply elem_of_dom. rewrite lookup_insert_eq. eauto.
Qed.

Lemma dom_drain (dead : gset ref) (q : list message) :
  ∀ d : gmap topic (list WeakCallable), dom d ⊆ dom (drain run dead d q).1.1.2.
Proof.
  induction q as [|msg q IH]; intros d; cbn; [reflexivity|].
  destruct (dom_getitem d (msg_topic msg)) as [Hg _].
  destruct (getitem d (msg_topic msg)) as [l d']. cbn in Hg.
  destruct (dispatch run dead l (msg_args msg) (msg_kwargs msg)) as [[u|e] ev];
    [|exact Hg].
  specialize (IH d').
  destruct (drain run dead d' q) as [[[r1 d1] q'] ev1]. cbn in *.
  etransitivity; eassumption.
Qed.

Lemma dom_collect (o : ref) (w : World) :
  dom (_subscribers (gc_collect o w)) = dom (_subscribers w).
Proof.
  unfold gc_collect. induction (dying o w) as [|x dead IH]; [reflexivity|].
  cbn [foldr]. unfold _on_collect at 1. cbn [_subscribers].
  rewrite dom_fmap_L. exact IH.
Qed.

(** X7: no operation of the messenger ever takes a topic out of the
    dictionary of subscribers: a topic that was subscribed to, unsubscribed
    from or dispatched once stays a key of it, also after all its
    subscribers were collected. *)
Theorem topics_are_never_forgotten (w w' : World) :
  step run w w' -> dom (_subscribers w) ⊆ dom (_subscribers w').
Proof.
  destruct 1 as [m h w|m h w|m a k w|w|o w].
  - unfold subscribe. destruct (dom_getitem (_subscribers w) m) as [Hg _].
    destruct (getitem (_subscribers w) m) as [l d]. cbn in *.
    etransitivity; [exact Hg|apply dom_insert_subseteq].
  - unfold unsubscribe. destruct (dom_getitem (_subscribers w) m) as [Hg _].
    destruct (getitem (_subscribers w) m) as [l d]. cbn in Hg.
    destruct (list_remove _ l); cbn; [|exact Hg].
    etransitivity; [exact Hg|apply dom_insert_subseteq].
  - reflexivity.
  - unfold _execute.
    pose proof (dom_drain (collected w) (_messages w) (_subscribers w)) as Hd.
    destruct (drain run (collected w) (_subscribers w) (_messages w))
      as [[[r d] q] ev]. exact Hd.
  - rewrite dom_collect. reflexivity.
Qed.

End BusFacts.


(* ===================================================================== *)
(** * More on the properties of a view model                              *)
(* ===================================================================== *)

Section PropertyFacts.
Import Py ViewModel.

Variable handle : ref -> option string -> result unit.

Lemma py_eq_refl (v : value) : py_eq v v = true.
Proof.
  destruct v as [| b | z | s | r]; cbn.
  - reflexivity.
  - destruct b; reflexivity.
  - apply Z.eqb_refl.
  - apply String.eqb_refl.
  - apply Nat.eqb_refl.
Qed.

Lemma slot_inj (d1 d2 : Notifiable) (n1 n2 : string) :
  name d1 = Some n1 -> name d2 = Some n2 -> slot d1 = slot d2 -> n1 = n2.
Proof.
  unfold slot. intros -> ->. cbn. intros H. injection H as H. exact H.
Qed.

(** The calls of the loop of [RaisePropertyChanged] when every handler
    returns. *)
Lemma call_handlers_all (handlers : list ref) (n : option string) :
  Forall (fun h => handle h n = Return tt) handlers ->
  call_handlers handle handlers n
  = (Return tt, (fun h => handler_called h n) <$> handlers).
Proof.
  induction 1 as [|h rest Hh _ IH]; [reflexivity|].
  cbn. rewrite Hh, IH. reflexivity.
Qed.

(** ... and when one of them raises. *)
Lemma call_handlers_raise (pre post : list ref) (h : ref)
      (n : option string) (e : exn) :
  Forall (fun h' => handle h' n = Return tt) pre ->
  handle h n = Raise e ->
  call_handlers handle (pre ++ h :: post) n
  = (Raise e, ((fun h' => handler_called h' n) <$> pre) ++ [handler_called h n]).
Proof.
  intros Hpre Hh. induction Hpre as [|h' pre Hh' _ IH]; cbn.
  - rewrite Hh. reflexivity.
  - rewrite Hh', IH. reflexivity.
Qed.

(** X8: [RaisePropertyChanged] calls the registered handlers in the order
    of their registration, once for each registration (a handler added
    twice is called twice), as long as they return. *)
Theorem RaisePropertyChanged_calls_in_order (self : Instance) (n : option string) :
  Forall (fun h => handle h n = Return tt) (property_chaged_handlers self) ->
  RaisePropertyChanged handle self n
  = (Return tt,
     RaisePropertyChanged_called n
     :: ((fun h => handler_called h n) <$> property_chaged_handlers self)).
Proof.
  intros H. unfold RaisePropertyChanged. rewrite (call_handlers_all _ _ H).
  reflexivity.
Qed.

(** X9: a handler that raises during a write ends the write with its
    exception: the handlers registered after it are not called, and the new
    value is stored all the same. *)
Theorem Notifiable_set_handler_raises
        (d : Notifiable) (obj : Instance) (v : value)
        (pre post : list ref) (h : ref) (e : exn) :
  py_eq (Notifiable_get d obj) v = false ->
  property_chaged_handlers obj = pre ++ h :: post ->
  Forall (fun h' => handle h' (name d) = Return tt) pre ->
  handle h (name d) = Raise e ->
  ∃ obj',
    Notifiable_set handle d obj v
    = (Raise e, obj',
       RaisePropertyChanged_called (name d)
       :: ((fun h' => handler_called h' (name d)) <$> pre)
       ++ [handler_called h (name d)])
    ∧ Notifiable_get d obj' = v.
Proof.
  intros Hne Hl Hpre Hh. unfold Notifiable_set, Notifiable_get, py_ne in *.
  rewrite Hne. cbn. unfold RaisePropertyChanged. cbn.
  rewrite Hl, (call_handlers_raise pre post h _ e Hpre Hh).
  eexists. split; [reflexivity|]. cbn. rewrite lookup_insert_eq. reflexivity.
Qed.

(** What a property reads after a write: a value equal to the one written,
    whatever the handlers did. *)
Lemma Notifiable_get_set (d : Notifiable) (obj : Instance) (v : value) :
  py_eq (Notifiable_get d (snd (fst (Notifiable_set handle d obj v)))) v = true.
Proof.
  unfold Notifiable_set, Notifiable_get, py_ne.
  destruct (py_eq (default (initial d) (attrs obj !! slot d)) v) eqn:E; cbn.
  - exact E.
  - destruct (RaisePropertyChanged handle _ (name d)) as [r ev]. cbn.
    rewrite lookup_insert_eq. apply py_eq_refl.
Qed.

(** X10: for a value [v] that is equal to itself, that is one for which
    the test [v != v] of the setter is false, the write of [v] after a
    write of [v] changes nothing and notifies nobody; and so whatever the
    first write did, also when one of its handlers raised. *)
Theorem Notifiable_set_twice (d : Notifiable) (obj : Instance) (v : value) :
  py_ne v v = false ->
  let obj' := snd (fst (Notifiable_set handle d obj v)) in
  Notifiable_set handle d obj' v = (Return tt, obj', []).
Proof.
  intros Hv. cbn zeta.
  destruct (Notifiable_set handle d obj v) as [[r1 obj1] ev1] eqn:E1.
  cbn [fst snd]. unfold Notifiable_set in E1.
  destruct (py_ne (default (initial d) (attrs obj !! slot d)) v) eqn:E.
  - destruct (RaisePropertyChanged handle _ (name d)) as [r ev].
    injection E1 as _ <- _.
    unfold Notifiable_set. cbn [attrs]. rewrite lookup_insert_eq.
    cbn [default from_option]. unfold id. rewrite Hv. reflexivity.
  - injection E1 as _ <- _. unfold Notifiable_set. rewrite E. reflexivity.
Qed.

(** X11: properties with different names do not share storage: a write
    to one leaves what the other reads as it was. *)
Theorem Notifiable_set_other_name
        (d1 d2 : Notifiable) (n1 n2 : string) (obj : Instance) (v : value) :
  name d1 = Some n1 -> name d2 = Some n2 -> n1 ≠ n2 ->
  Notifiable_get d2 (snd (fst (Notifiable_set handle d1 obj v)))
  = Notifiable_get d2 obj.
Proof.
  intros H1 H2 Hne. unfold Notifiable_set, Notifiable_get.
  destruct (py_ne _ v); [|reflexivity].
  destruct (RaisePropertyChanged handle _ (name d1)) as [r ev]. cbn.
  rewrite lookup_insert_ne; [reflexivity|].
  intros Hs. apply Hne. exact (slot_inj d1 d2 n1 n2 H1 H2 Hs).
Qed.

(** X12: descriptors that were never given a name all use the slot
    [__notifiable_None] of the instance: what is written through one is
    read through every other, whatever their initial values. *)
Theorem Notifiable_nameless_share
        (d1 d2 : Notifiable) (obj : Instance) (v : value) :
  name d1 = None -> name d2 = None ->
  py_eq (Notifiable_get d1 obj) v = false ->
  Notifiable_get d2 (snd (fst (Notifiable_set handle d1 obj v))) = v.
Proof.
  intros H1 H2 Hne. unfold Notifiable_set, Notifiable_get, py_ne in *.
  rewrite Hne. cbn.
  destruct (RaisePropertyChanged handle _ (name d1)) as [r ev]. cbn.
  replace (slot d2) with (slot d1) by (unfold slot; rewrite H1, H2; reflexivity).
  rewrite lookup_insert_eq. reflexivity.
Qed.

(** X13: after [__delete__] the property reads its initial value again,
    and a write of a value that differs from the initial one notifies,
    also when it is the value that was deleted. *)
Theorem Notifiable_delete_resets (d : Notifiable) (obj : Instance) (v : value) :
  Notifiable_get d (Notifiable_delete d obj) = initial d
  ∧ (py_eq (initial d) v = false ->
     raised (snd (Notifiable_set handle d (Notifiable_delete d obj) v)) = [name d]).
Proof.
  unfold Notifiable_get, Notifiable_delete, Notifiable_set, py_ne. cbn.
  rewrite lookup_delete_eq. cbn. split; [reflexivity|]. intros ->. cbn.
  match goal with
  | |- context [RaisePropertyChanged handle ?o ?n] =>
      pose proof (raised_RaisePropertyChanged handle o n) as H;
      destruct (RaisePropertyChanged handle o n) as [r ev]
  end.
  exact H.
Qed.

End PropertyFacts.

(* ===================================================================== *)
(** * The metaclass, signals, the decorator                               *)
(* ===================================================================== *)

Section MetaFacts.
Import Py Messenger ViewModel Signal.

Lemma ViewModelMeta_new_snoc (name : string) (dct : list (string * value))
      (item : string * value) (heap : gmap ref object) :
  ViewModelMeta_new name (dct ++ [item]) heap
  = (fst item,
     name_member (fst item) (snd item) (snd (ViewModelMeta_new name dct heap))).
Proof. unfold ViewModelMeta_new. rewrite foldl_app. reflexivity. Qed.

(** X14: the loop of the metaclass uses the parameter [name] as its loop
    variable: a class whose dictionary is not empty is created under the
    key of the last item of its dictionary, not under its own name. *)
Theorem ViewModelMeta_class_name (name : string) (dct : list (string * value))
        (heap : gmap ref object) :
  fst (ViewModelMeta_new name dct heap) = default name (last (fst <$> dct)).
Proof.
  destruct dct as [|item dct _] using rev_ind; [reflexivity|].
  rewrite ViewModelMeta_new_snoc, fmap_app.
  change (fst <$> [item]) with [fst item]. rewrite last_snoc. reflexivity.
Qed.

(** A descriptor that has a name is left alone by the loop. *)
Lemma name_member_named (key : string) (val : value) (heap : gmap ref object)
      (r : ref) (d : Notifiable) :
  heap !! r = Some (ObjNotifiable d) ->
  unnamed (ViewModel.name d) = false ->
  name_member key val heap !! r = Some (ObjNotifiable d).
Proof.
  intros Hr Hd. unfold name_member.
  destruct val as [| | | |r']; try exact Hr.
  destruct (decide (r' = r)) as [->|Hne].
  - rewrite Hr, Hd. exact Hr.
  - destruct (heap !! r') as [[d'|sg|]|]; try exact Hr.
    + destruct (unnamed (ViewModel.name d')); [|exact Hr].
      rewrite lookup_insert_ne by exact Hne. exact Hr.
    + destruct (unnamed (sig_name sg)); [|exact Hr].
      rewrite lookup_insert_ne by exact Hne. exact Hr.
Qed.

Lemma fold_named (dct : list (string * value)) :
  ∀ (name : string) (heap : gmap ref object) (r : ref) (d : Notifiable),
  heap !! r = Some (ObjNotifiable d) ->
  unnamed (ViewModel.name d) = false ->
  snd (ViewModelMeta_new name dct heap) !! r = Some (ObjNotifiable d).
Proof.
  induction dct as [|item dct IH]; intros name heap r d Hr Hd; [exact Hr|].
  unfold ViewModelMeta_new in *. cbn [foldl fst snd].
  apply IH; [|exact Hd]. apply name_member_named; assumption.
Qed.

(** A descriptor stays a descriptor with its initial value, named or not. *)
Lemma name_member_Notifiable (key : string) (val : value) (heap : gmap ref object)
      (r : ref) (d : Notifiable) :
  heap !! r = Some (ObjNotifiable d) ->
  name_member key val heap !! r = Some (ObjNotifiable d)
  ∨ (val = VRef r ∧ unnamed (ViewModel.name d) = true
     ∧ name_member key val heap !! r
       = Some (ObjNotifiable {| ViewModel.name := Some key; initial := initial d |})).
Proof.
  intros Hr. destruct (unnamed (ViewModel.name d)) eqn:Hd;
    [|left; apply name_member_named; assumption].
  unfold name_member.
  destruct val as [| | | |r']; auto.
  destruct (decide (r' = r)) as [->|Hne].
  - rewrite Hr, Hd. right. rewrite lookup_insert_eq. auto.
  - left. destruct (heap !! r') as [[d'|sg|]|]; try exact Hr.
    + destruct (unnamed (ViewModel.name d')); [|exact Hr].
      rewrite lookup_insert_ne by exact Hne. exact Hr.
    + destruct (unnamed (sig_name sg)); [|exact Hr].
      rewrite lookup_insert_ne by exact Hne. exact Hr.
Qed.

Lemma unnamed_key (key : string) : key ≠ "" -> unnamed (Some key) = false.
Proof. intros H. cbn. apply String.eqb_neq. exact H. Qed.

(** X15: after the metaclass ran, every [Notifiable] of the class
    dictionary has a name that is not empty and still has its initial
    value: the name it was built with if it had one, and otherwise one of
    the keys it is stored under. *)
Theorem ViewModelMeta_names_members (dct : list (string * value)) :
  Forall (fun item => fst item ≠ "") dct ->
  ∀ (name : string) (heap : gmap ref object) (key : string) (r : ref)
    (d : Notifiable),
  (key, VRef r) ∈ dct ->
  heap !! r = Some (ObjNotifiable d) ->
  ∃ n,
    snd (ViewModelMeta_new name dct heap) !! r
    = Some (ObjNotifiable {| ViewModel.name := Some n; initial := initial d |})
    ∧ n ≠ ""
    ∧ (unnamed (ViewModel.name d) = false -> ViewModel.name d = Some n)
    ∧ (unnamed (ViewModel.name d) = true -> ∃ key', (key', VRef r) ∈ dct ∧ n = key').
Proof.
  induction 1 as [|item dct Hitem Hdct IH]; intros name heap key r d Hin Hr.
  { inversion Hin. }
  unfold ViewModelMeta_new. cbn [foldl fst snd].
  fold (ViewModelMeta_new (fst item) dct (name_member (fst item) (snd item) heap)).
  destruct (name_member_Notifiable (fst item) (snd item) heap r d Hr)
    as [Hsame|(Hval & Hd & Hset)].
  - apply elem_of_cons in Hin as [Hhead|Htail].
    + (* the head is this very member, and it was named already *)
      subst item. cbn [fst snd] in *.
      destruct (unnamed (ViewModel.name d)) eqn:Hd.
      * exfalso. unfold name_member in Hsame. rewrite Hr, Hd in Hsame.
        rewrite lookup_insert_eq in Hsame. injection Hsame as Hsame.
        rewrite <- Hsame in Hd. cbn in Hd. apply String.eqb_eq in Hd.
        contradiction.
      * destruct d as [[n|] ini]; cbn in Hd; [|discriminate].
        exists n. split; [|split; [|split]].
        -- apply fold_named; [exact Hsame|exact Hd].
        -- apply String.eqb_neq. exact Hd.
        -- reflexivity.
        -- discriminate.
    + destruct (IH (fst item) _ key r d Htail Hsame) as (n & Hn & Hne & Hnamed & Hun).
      exists n. split; [exact Hn|]. split; [exact Hne|]. split; [exact Hnamed|].
      intros Hd. destruct (Hun Hd) as (key' & Hk & ->). exists key'.
      split; [right; exact Hk|reflexivity].
  - exists (fst item). split; [|split; [|split]].
    + apply fold_named; [exact Hset|]. apply unnamed_key, Hitem.
    + exact Hitem.
    + rewrite Hd. discriminate.
    + intros _. exists (fst item). split; [|reflexivity].
      destruct item as [k v]. cbn [fst snd] in *. subst v. left.
Qed.

(** X16: [Signal.__init__] drops its argument: a signal cannot be printed,
    whatever name it was built with, until the metaclass has found it in a
    class dictionary; from then on it prints the key it was found under. *)
Theorem Signal_str_needs_metaclass
        (id : topic) (given : option string) (key : string) (r : ref)
        (heap : gmap ref object) :
  Signal_str (Signal_init id given) = Raise AttributeError
  ∧ (heap !! r = Some (ObjSignal (Signal_init id given)) ->
     ∃ sg, name_member key (VRef r) heap !! r = Some (ObjSignal sg)
           ∧ sig_id sg = id
           ∧ Signal_str sg = Return ("signal " +:+ key)).
Proof.
  split; [reflexivity|]. intros Hr. unfold name_member. rewrite Hr. cbn.
  rewrite lookup_insert_eq. eexists. split; [reflexivity|]. split; reflexivity.
Qed.

End MetaFacts.

Section DecoratorFacts.
Import Py ViewModel Decorator.

Variable getter : Instance -> result value.
Variable setter : Instance -> value -> result unit * Instance.
Variable setter_name : string.
Variable handle : ref -> option string -> result unit.

(** X17: with a getter that fails with [AttributeError] the old value
    counts as [None]: the first assignment of any other value runs the
    setter and notifies once under the setter's name, but the assignment of
    [None] is dropped, the setter is not run. *)
Theorem notifiable_first_assignment (slf : Instance) :
  getter slf = Raise AttributeError ->
  newsetter getter setter setter_name handle slf VNone = (Return tt, slf, [])
  ∧ ∀ v slf',
      py_eq VNone v = false ->
      setter slf v = (Return tt, slf') ->
      snd (fst (newsetter getter setter setter_name handle slf v)) = slf'
      ∧ raised (snd (newsetter getter setter setter_name handle slf v))
        = [Some setter_name].
Proof.
  intros Hg. unfold newsetter, newgetter. rewrite Hg. split; [reflexivity|].
  intros v slf' Hv Hs. unfold py_ne. rewrite Hv, Hs. cbn.
  pose proof (raised_RaisePropertyChanged handle slf' (Some setter_name)) as H.
  destruct (RaisePropertyChanged handle slf' (Some setter_name)) as [r ev].
  cbn in *. auto.
Qed.

End DecoratorFacts.

(* ===================================================================== *)
(** * More on commands and on List                                        *)
(* ===================================================================== *)

Section CommandFacts.
Import Py ViewModel Commands.

Variable call : ref -> list value -> result value.

(** X18: the predicate that a command asks is the one the descriptor had
    when the command was first read. Attached before, it is asked with the
    reading instance and without the parameter; attached after, it never
    reaches the command, which answers [True] to every [CanExecute]. *)
Theorem can_execute_fixed_at_first_read
        (handler ce : ref) (a b : option ref) (parameter : value) (st : Store) :
  (let '(r, d, st') :=
     command_get a (command_can_execute ce (command_init (Some handler) None)) st in
   r = Return (next_ref st)
   ∧ ∃ cmd, commands st' !! next_ref st = Some cmd
            ∧ CanExecute call parameter cmd
              = call ce [match a with Some o => VRef o | None => VNone end])
  ∧ (let '(r1, d1, st1) := command_get a (command_init (Some handler) None) st in
     let '(r2, d2, st2) := command_get b (command_can_execute ce d1) st1 in
     r2 = r1
     ∧ ∃ cmd, commands st2 !! next_ref st = Some cmd
              ∧ CanExecute call parameter cmd = Return (VBool true)).
Proof.
  split; cbn.
  - split; [reflexivity|]. eexists. rewrite lookup_insert_eq.
    split; [reflexivity|]. destruct a; reflexivity.
  - split; [reflexivity|]. eexists. rewrite lookup_insert_eq.
    split; reflexivity.
Qed.

(** [l.remove(x)] right after [l.append(x)], for an [x] that was not in
    [l]. *)
Lemma remove_first_snoc (x : ref) (l : list ref) :
  x ∉ l -> remove_first x (l ++ [x]) = Some l.
Proof.
  induction l as [|y l IH]; intros Hx; cbn.
  - rewrite Nat.eqb_refl. reflexivity.
  - apply not_elem_of_cons in Hx as [Hne Hx].
    destruct (Nat.eqb_spec y x) as [->|_]; [contradiction|].
    rewrite (IH Hx). reflexivity.
Qed.

Lemma remove_first_absent (x : ref) (l : list ref) :
  x ∉ l -> remove_first x l = None.
Proof.
  induction l as [|y l IH]; intros Hx; cbn; [reflexivity|].
  apply not_elem_of_cons in Hx as [Hne Hx].
  destruct (Nat.eqb_spec y x) as [->|_]; [contradiction|].
  rewrite (IH Hx). reflexivity.
Qed.

Lemma list_call_remove (x : ref) (l : list ref) :
  list_call "remove" x l
  = match remove_first x l with
    | Some l' => (Return tt, l')
    | None => (Raise ValueError, l)
    end.
Proof. reflexivity. Qed.

(** X19: [remove_CanExecuteChanged] of a handler that is not registered
    raises [ValueError] and leaves the command as it is; right after
    [add_CanExecuteChanged] of that handler it returns and gives the
    command back as it was before the two calls. *)
Theorem remove_CanExecuteChanged_undoes_add (handler : ref) (self : Command) :
  handler ∉ _can_execute_changed_handlers self ->
  remove_CanExecuteChanged handler self = (Raise ValueError, self)
  ∧ remove_CanExecuteChanged handler (snd (add_CanExecuteChanged handler self))
    = (Return tt, self).
Proof.
  intros Hx. unfold remove_CanExecuteChanged, add_CanExecuteChanged.
  rewrite list_call_append. cbn [snd _can_execute_changed_handlers execute can_execute].
  rewrite !list_call_remove, (remove_first_absent _ _ Hx), (remove_first_snoc _ _ Hx).
  destruct self; split; reflexivity.
Qed.

Lemma within (j n : Z) :
  (0 <= j < n)%Z -> ((0 <=? j)%Z && (j <? n)%Z) = true.
Proof. intros H. apply andb_true_iff. split; [apply Z.leb_le|apply Z.ltb_lt]; lia. Qed.

Lemma without (j n : Z) :
  (j < 0 ∨ n <= j)%Z -> ((0 <=? j)%Z && (j <? n)%Z) = false.
Proof.
  intros H. apply andb_false_iff.
  destruct H; [left; apply Z.leb_gt|right; apply Z.ltb_ge]; lia.
Qed.

Lemma Count_snoc (l : List) (x : value) : (Count (l ++ [x]) - 1 = Count l)%Z.
Proof. unfold Count. rewrite length_app. cbn. lia. Qed.

Lemma delete_last (l : List) (x : value) : delete (length l) (l ++ [x]) = l.
Proof.
  induction l as [|y l IH]; [reflexivity|]. cbn. f_equal. exact IH.
Qed.

(** X20: [pop] does not hand out the item it removes, it returns [None];
    and since the index 0 counts as no index, [pop(0)] removes the last
    item like [pop()], not the first. *)
Theorem pop_0_removes_last (self : List) (item : value) :
  pop None (self ++ [item]) = (Return VNone, self)
  ∧ pop (Some 0%Z) (self ++ [item]) = (Return VNone, self).
Proof.
  assert (H : RemoveAt (Count (self ++ [item]) - 1) (self ++ [item])
              = (Return VNone, self)).
  { rewrite Count_snoc. unfold RemoveAt, Count. rewrite length_app. cbn [length].
    rewrite within by lia.
    rewrite Nat2Z.id, delete_last. reflexivity. }
  split; exact H.
Qed.

(** X21: an index outside the collection raises and removes nothing: so
    every negative index, which a Python list would count from the end,
    every index from the length on, and [pop()] on an empty collection. *)
Theorem pop_out_of_range (self : List) (i : Z) :
  (i < 0 ∨ Count self <= i)%Z ->
  pop (Some i) self = (Raise (Exception_ "ArgumentOutOfRangeException"), self)
  ∧ pop None [] = (Raise (Exception_ "ArgumentOutOfRangeException"), []).
Proof.
  intros Hi. split; [|reflexivity]. unfold pop.
  assert (Hout : ∀ j, (j < 0 ∨ Count self <= j)%Z ->
                      RemoveAt j self
                      = (Raise (Exception_ "ArgumentOutOfRangeException"), self)).
  { intros j Hj. unfold RemoveAt. rewrite without by exact Hj. reflexivity. }
  destruct (Z.eqb_spec i 0) as [->|_]; apply Hout; [|exact Hi].
  destruct Hi as [Hi|Hi]; lia.
Qed.

(** X22: an item that was added is read back at the index that was the
    length of the collection and at the index -1, and the items before it
    are read at the indices they had. *)
Theorem List_getitem_after_Add (self : List) (item : value) :
  let self' := snd (Add item self) in
  List_getitem (Count self) self' = Return item
  ∧ List_getitem (-1) self' = Return item
  ∧ ∀ i v, self !! i = Some v -> List_getitem (Z.of_nat i) self' = Return v.
Proof.
  cbn zeta. unfold Add, List_getitem, List in *. cbn [snd].
  assert (Hn : Count (self ++ [item]) = (Count self + 1)%Z).
  { unfold Count. rewrite length_app. cbn. lia. }
  assert (Hlast : (self ++ [item]) !! length self = Some item).
  { rewrite lookup_app_r by lia. rewrite Nat.sub_diag. reflexivity. }
  assert (H0 : (0 <= Count self)%Z) by (unfold Count; lia).
  split; [|split].
  - unfold List_getitem. rewrite Hn.
    rewrite (proj2 (Z.ltb_ge _ _)) by lia. rewrite within by lia.
    unfold Count. rewrite Nat2Z.id, Hlast. reflexivity.
  - unfold List_getitem. rewrite Hn.
    change (-1 <? 0)%Z with true. cbn match.
    replace (-1 + (Count self + 1))%Z with (Count self) by lia.
    rewrite within by lia.
    unfold Count. rewrite Nat2Z.id, Hlast. reflexivity.
  - intros i v Hi. pose proof (lookup_lt_Some _ _ _ Hi) as Hlt.
    unfold List_getitem. rewrite Hn.
    rewrite (proj2 (Z.ltb_ge _ _)) by lia.
    rewrite within by (unfold Count; lia).
    rewrite Nat2Z.id, lookup_app_l by exact Hlt. rewrite Hi. reflexivity.
Qed.

End CommandFacts.

(* ===================================================================== *)
(** * More on the calculator                                              *)
(* ===================================================================== *)

Section KeypadFacts.
Import Py Builtins Calc.

Lemma outputText_set_inputText (x : string) (s : MyViewModel) :
  outputText (set_inputText x s) = outputText s.
Proof. unfold set_inputText. destruct (py_ne _ _); reflexivity. Qed.

Lemma outputNumber_set_inputText (x : string) (s : MyViewModel) :
  outputNumber (set_inputText x s) = outputNumber s.
Proof. unfold set_inputText. destruct (py_ne _ _); reflexivity. Qed.

Lemma outputNumber_set_outputText (v : value) (s : MyViewModel) :
  outputNumber (set_outputText v s) = outputNumber s.
Proof. unfold set_outputText. destruct (py_ne _ _); reflexivity. Qed.

Create Rewrite HintDb fields.
Hint Rewrite inputText_set_inputText outputText_set_outputText_str
     inputText_set_outputText prevOperator_set_outputText
     prevOperator_set_inputText outputText_set_inputText
     outputNumber_set_inputText outputNumber_set_outputText : fields.

(** The state in which [operatorCommand] goes on after the AC test. *)
Lemma after_AC_test (param : string) (s : MyViewModel) :
  let s0 := if String.eqb "AC" param
            then set_prevOperator "=" (set_outputNumber 0 (set_outputText (VStr "") s))
            else s in
  inputText s0 = inputText s
  ∧ ((∃ t, outputText s = VStr t) -> ∃ t, outputText s0 = VStr t).
Proof.
  cbn zeta. destruct (String.eqb "AC" param); cbn; autorewrite with fields.
  - split; [reflexivity|]. eauto.
  - auto.
Qed.

(** The cases of [operatorCommand] after the test of the input. *)
Ltac operator_cases s1 :=
  destruct (String.eqb (prevOperator s1) "/");
  [destruct (float_of_str (inputText s1)) as [x|e];
   [destruct (float_is_zero x)|]|];
  repeat match goal with
    | |- context [operators ?k] => destruct (operators k) as [op|]
    | op : Q -> string -> result Q |- context [?f ?a ?b] =>
        constr_eq f op; destruct (op a b) as [q|e']
    | |- context [float_of_Fraction ?q'] => destruct (float_of_Fraction q') as [y|e'']
    end;
  cbn [fst snd].

(** Whatever the key and whether the command returns or raises, the input
    is afterwards what it was or empty. *)
Lemma operatorCommand_input (param : string) (s : MyViewModel) :
  inputText (snd (operatorCommand param s)) = inputText s
  ∨ inputText (snd (operatorCommand param s)) = "".
Proof.
  unfold operatorCommand.
  destruct (after_AC_test param s) as [H0 _]. cbn zeta in H0.
  set (s0 := if String.eqb "AC" param then _ else s) in *.
  destruct (contains_C param).
  { right. cbn. apply inputText_set_inputText. }
  destruct (is_empty_str (VStr (inputText s0))).
  { left. exact H0. }
  destruct (outputText_0_frame s0) as [H1 _]. cbn zeta in H1.
  set (s1 := if is_empty_str (outputText s0) then _ else s0) in *.
  operator_cases s1; autorewrite with fields; cbn; autorewrite with fields;
    auto; left; congruence.
Qed.

(** X23: whatever keys are pressed, also keys whose command raises, the
    input is at every moment empty or a string that [float] accepts:
    [addDigitCommand] lets nothing else in. *)
Theorem inputText_is_always_a_number (ks : list key) :
  ∀ s : MyViewModel,
  inputText s = "" ∨ (∃ x, float_of_str (inputText s) = Return x) ->
  let s' := snd (press_each ks s) in
  inputText s' = "" ∨ ∃ x, float_of_str (inputText s') = Return x.
Proof.
  induction ks as [|k ks IH]; intros s Hs; [exact Hs|].
  cbn [press_each].
  destruct (press k s) as [r s1] eqn:E.
  specialize (IH s1).
  destruct (press_each ks s1) as [rs s2]. cbn in *.
  apply IH. clear IH.
  destruct k as [param|param]; cbn in E.
  - unfold addDigitCommand in E.
    destruct (float_of_str (inputText s +:+ param)) as [x|e] eqn:Ef.
    + injection E as _ <-. rewrite inputText_set_inputText. eauto.
    + destruct e; injection E as _ <-; exact Hs.
  - pose proof (operatorCommand_input param s) as H. rewrite E in H. cbn in H.
    destruct H as [-> | ->]; auto.
Qed.

(** X24: the key AC brings the calculator back to its initial state from
    every state, and raises nothing: both texts empty, the accumulator 0,
    the assignment pending. *)
Theorem AC_resets (s : MyViewModel) :
  ∃ s', operatorCommand "AC" s = (Return tt, s')
        ∧ outputText s' = outputText initial
        ∧ inputText s' = inputText initial
        ∧ outputNumber s' = outputNumber initial
        ∧ prevOperator s' = prevOperator initial.
Proof.
  eexists. split; [reflexivity|]. cbn. autorewrite with fields. cbn.
  autorewrite with fields. auto.
Qed.

(** X25: a key whose parameter contains a C and is not AC, the key C
    itself to begin with, empties the input and touches nothing else: not
    the output, not the accumulator, not the pending operator. *)
Theorem C_clears_input_only (param : string) (s : MyViewModel) :
  contains_C param = true ->
  String.eqb "AC" param = false ->
  ∃ s', operatorCommand param s = (Return tt, s')
        ∧ inputText s' = ""
        ∧ outputText s' = outputText s
        ∧ outputNumber s' = outputNumber s
        ∧ prevOperator s' = prevOperator s.
Proof.
  intros HC HAC. unfold operatorCommand. rewrite HAC, HC.
  eexists. split; [reflexivity|]. autorewrite with fields. auto.
Qed.

(** X26: an operator key pressed while the input is empty computes
    nothing, it becomes the pending operator: of two operator keys in a
    row the second one counts. *)
Theorem last_operator_wins (p1 p2 : string) (s : MyViewModel) :
  inputText s = "" ->
  contains_C p1 = false -> String.eqb "AC" p1 = false ->
  contains_C p2 = false -> String.eqb "AC" p2 = false ->
  press_all [Operator p1; Operator p2] s = (Return tt, set_prevOperator p2 s).
Proof.
  intros Hin HC1 HAC1 HC2 HAC2. cbn [press_all press].
  unfold operatorCommand at 1. rewrite HAC1, HC1, Hin. cbn.
  unfold operatorCommand. rewrite HAC2, HC2. cbn. rewrite Hin. reflexivity.
Qed.

(** X27: a division by zero is absorbed at the price of the key that
    revealed it: both texts are emptied, but the accumulator keeps its
    value and the division stays pending, the operator just pressed is
    not recorded. *)
Theorem divide_by_zero_keeps_division_pending
        (param : string) (x : pyfloat) (s : MyViewModel) :
  contains_C param = false -> String.eqb "AC" param = false ->
  inputText s ≠ "" ->
  prevOperator s = "/" ->
  float_of_str (inputText s) = Return x ->
  float_is_zero x = true ->
  ∃ s', operatorCommand param s = (Return tt, s')
        ∧ inputText s' = "" ∧ outputText s' = VStr ""
        ∧ outputNumber s' = outputNumber s
        ∧ prevOperator s' = "/".
Proof.
  intros HC HAC Hin Hop Hf Hz. unfold operatorCommand. rewrite HAC, HC.
  replace (is_empty_str (VStr (inputText s))) with false
    by (symmetry; cbn; apply String.eqb_neq; exact Hin).
  destruct (outputText_0_frame s) as [Hin1 Hop1]. cbn zeta in Hin1, Hop1.
  set (s1 := if is_empty_str (outputText s) then _ else s) in *.
  assert (Hn1 : outputNumber s1 = outputNumber s).
  { subst s1. destruct (is_empty_str (outputText s)); autorewrite with fields;
      reflexivity. }
  rewrite Hop1, Hop, Hin1, Hf, Hz. cbn.
  eexists. split; [reflexivity|]. autorewrite with fields.
  repeat split; congruence.
Qed.

(** One command that returns keeps a string in [outputText]. *)
Lemma press_keeps_string (k : key) (s s' : MyViewModel) :
  (∃ t, outputText s = VStr t) ->
  press k s = (Return tt, s') ->
  ∃ t, outputText s' = VStr t.
Proof.
  intros Hs. destruct k as [param|param]; cbn.
  - unfold addDigitCommand.
    destruct (float_of_str (inputText s +:+ param)) as [x|e].
    + intros [= <-]. rewrite outputText_set_inputText. exact Hs.
    + destruct e; intros [= <-]; exact Hs.
  - unfold operatorCommand.
    destruct (after_AC_test param s) as [_ H0]. cbn zeta in H0. specialize (H0 Hs).
    set (s0 := if String.eqb "AC" param then _ else s) in *.
    destruct (contains_C param).
    { intros [= <-]. rewrite outputText_set_inputText. exact H0. }
    destruct (is_empty_str (VStr (inputText s0))).
    { intros [= <-]. exact H0. }
    set (s1 := if is_empty_str (outputText s0) then _ else s0) in *.
    operator_cases s1; intros [= <-]; autorewrite with fields; eauto.
Qed.

(** X28: as long as no command raises, [outputText] holds a string: the
    integer 0 that [operatorCommand] puts there on its way is never what a
    command that returns leaves. *)
Theorem outputText_is_a_string (ks : list key) :
  ∀ s s' : MyViewModel,
  (∃ t, outputText s = VStr t) ->
  press_all ks s = (Return tt, s') ->
  ∃ t, outputText s' = VStr t.
Proof.
  induction ks as [|k ks IH]; intros s s' Hs; cbn [press_all].
  - intros [= <-]. exact Hs.
  - destruct (press k s) as [[[]|e] s1] eqn:E; [|discriminate].
    intros H. apply (IH s1 s'); [|exact H].
    exact (press_keeps_string k s s1 Hs E).
Qed.

End KeypadFacts.

(* ===================================================================== *)
(** * The further properties on concrete sessions                         *)
(* ===================================================================== *)

Section BusSessions.
Import Py Messenger Session.

(** X1 at work: 7 and 8 queued for the method without function and for
    function 2. *)
Lemma execute_in_order_sent_session :
  let w := busy two_subscribers in
  Forall (fun msg =>
            Forall (fun s => passes run (collected w) (msg_args msg) (msg_kwargs msg) s = true)
                   (subscribers_of w (msg_topic msg)))
         (_messages w)
  ∧ snd (_execute run w)
    = mjoin ((fun msg => snd (dispatch run (collected w)
                                       (subscribers_of w (msg_topic msg))
                                       (msg_args msg) (msg_kwargs msg)))
               <$> _messages w).
Proof.
  cbn zeta.
  assert (H : Forall (fun msg =>
            Forall (fun s => passes run (collected (busy two_subscribers))
                                    (msg_args msg) (msg_kwargs msg) s = true)
                   (subscribers_of (busy two_subscribers) (msg_topic msg)))
         (_messages (busy two_subscribers))).
  { vm_compute. repeat constructor. }
  split; [exact H|]. exact (execute_in_order_sent run _ H).
Defined.

(** X2 at work: 9 is sent to topic 0, then the method 5 of object 6
    subscribes, then the tick runs. *)
Lemma late_subscriber_is_called_session :
  let w := subscribe 0 (Function 2) init in
  _messages w = []
  ∧ Forall (fun o => o ∉ collected w) (referents (Method 5 6))
  ∧ Forall (fun s => passes run (collected w) [VInt 9] [] s = true) (subscribers_of w 0)
  ∧ let w1 := subscribe 0 (Method 5 6) (snd (send 0 [VInt 9] [] w)) in
    snd (_execute run w1)
    = snd (dispatch run (collected w) (subscribers_of w 0) [VInt 9] [])
      ++ [invocation (Method 5 6) [VInt 9] []]
    ∧ _messages (snd (fst (_execute run w1))) = [].
Proof.
  cbn zeta.
  assert (H1 : _messages (subscribe 0 (Function 2) init) = []) by reflexivity.
  assert (H2 : Forall (fun o => o ∉ collected (subscribe 0 (Function 2) init))
                      (referents (Method 5 6))).
  { apply Forall_cons; split; [apply not_elem_of_empty|].
    apply Forall_cons; split; [apply not_elem_of_empty|constructor]. }
  assert (H3 : Forall (fun s => passes run (collected (subscribe 0 (Function 2) init))
                                      [VInt 9] [] s = true)
                      (subscribers_of (subscribe 0 (Function 2) init) 0)).
  { vm_compute. repeat constructor. }
  repeat (split; [assumption|]).
  exact (late_subscriber_is_called run 0 (Method 5 6) [VInt 9] [] _ H1 H2 H3).
Defined.

(** X3 at work: the method 5 of object 6 subscribes twice to topic 0. *)
Lemma subscribed_twice_called_twice_session :
  let w := subscribe 0 (Function 2) init in
  _messages w = []
  ∧ Forall (fun o => o ∉ collected w) (referents (Method 5 6))
  ∧ Forall (fun s => passes run (collected w) [VInt 9] [] s = true) (subscribers_of w 0)
  ∧ run (ev_func (invocation (Method 5 6) [VInt 9] []))
        (ev_args (invocation (Method 5 6) [VInt 9] [])) [] = Return tt
  ∧ let w1 := snd (send 0 [VInt 9] []
                        (subscribe 0 (Method 5 6) (subscribe 0 (Method 5 6) w))) in
    _execute run w1
    = (Return tt, snd (fst (_execute run w1)),
       snd (dispatch run (collected w) (subscribers_of w 0) [VInt 9] [])
       ++ [invocation (Method 5 6) [VInt 9] []; invocation (Method 5 6) [VInt 9] []]).
Proof.
  cbn zeta.
  assert (H1 : _messages (subscribe 0 (Function 2) init) = []) by reflexivity.
  assert (H2 : Forall (fun o => o ∉ collected (subscribe 0 (Function 2) init))
                      (referents (Method 5 6))).
  { apply Forall_cons; split; [apply not_elem_of_empty|].
    apply Forall_cons; split; [apply not_elem_of_empty|constructor]. }
  assert (H3 : Forall (fun s => passes run (collected (subscribe 0 (Function 2) init))
                                      [VInt 9] [] s = true)
                      (subscribers_of (subscribe 0 (Function 2) init) 0)).
  { vm_compute. repeat constructor. }
  assert (H4 : run (ev_func (invocation (Method 5 6) [VInt 9] []))
                   (ev_args (invocation (Method 5 6) [VInt 9] [])) [] = Return tt)
    by reflexivity.
  repeat (split; [assumption|]).
  exact (subscribed_twice_called_twice run 0 (Method 5 6) [VInt 9] [] _ H1 H2 H3 H4).
Defined.

(** X4 at work: the method subscribes to topic 1, 9 is sent to topic 0. *)
Lemma other_topic_not_called_session :
  let w := subscribe 0 (Function 2) init in
  1 ≠ 0
  ∧ _messages w = []
  ∧ let w1 := snd (send 0 [VInt 9] [] (subscribe 1 (Method 5 6) w)) in
    let w0 := snd (send 0 [VInt 9] [] w) in
    fst (fst (_execute run w1)) = fst (fst (_execute run w0))
    ∧ snd (_execute run w1) = snd (_execute run w0)
    ∧ snd (_execute run w1)
      = snd (dispatch run (collected w) (subscribers_of w 0) [VInt 9] []).
Proof.
  cbn zeta.
  assert (H1 : 1 ≠ 0) by discriminate.
  assert (H2 : _messages (subscribe 0 (Function 2) init) = []) by reflexivity.
  repeat (split; [assumption|]).
  exact (other_topic_not_called run 1 0 (Method 5 6) [VInt 9] [] _ H1 H2).
Defined.

Lemma reachable_three_subscribers : reachable run three_subscribers.
Proof.
  unfold three_subscribers.
  repeat (eapply reachable_step; [|apply step_subscribe]).
  apply reachable_init.
Defined.

(** X5 at work: object 4, the receiver of the first of three subscribers,
    is collected. *)
Lemma collect_removes_watchers_session :
  reachable run three_subscribers
  ∧ subscribers_of (gc_collect 4 three_subscribers) 0
    = filter (fun wc => watched wc ≠ 4) (subscribers_of three_subscribers 0).
Proof.
  split; [exact reachable_three_subscribers|].
  exact (collect_removes_watchers run 4 0 _ reachable_three_subscribers).
Defined.

(** X6 at work: function 3, of the method of object 4, is collected. *)
Lemma dead_function_stays_subscribed_session :
  let wc := WeakCallable_init 0 (Method 3 4) true in
  reachable run three_subscribers
  ∧ wc ∈ subscribers_of three_subscribers 0
  ∧ target wc = Method 3 4
  ∧ 3 ≠ 4
  ∧ wc ∈ subscribers_of (gc_collect 3 three_subscribers) 0
  ∧ WeakCallable_call run (collected (gc_collect 3 three_subscribers)) wc [VInt 7] []
    = (Raise ReferenceError, []).
Proof.
  cbn zeta.
  assert (H2 : WeakCallable_init 0 (Method 3 4) true
               ∈ subscribers_of three_subscribers 0).
  { vm_compute. left. }
  assert (H3 : target (WeakCallable_init 0 (Method 3 4) true) = Method 3 4)
    by reflexivity.
  assert (H4 : 3 ≠ 4) by discriminate.
  split; [exact reachable_three_subscribers|].
  split; [exact H2|]. split; [exact H3|]. split; [exact H4|].
  exact (dead_function_stays_subscribed run 3 4 0 _ [VInt 7] [] _
           reachable_three_subscribers H2 H3 H4).
Defined.

(** X7 at work: the first subscription to topic 0. *)
Lemma topics_are_never_forgotten_session :
  step run init (subscribe 0 (Function 2) init)
  ∧ dom (_subscribers init) ⊆ dom (_subscribers (subscribe 0 (Function 2) init)).
Proof.
  assert (H : step run init (subscribe 0 (Function 2) init)) by apply step_subscribe.
  split; [exact H|]. exact (topics_are_never_forgotten run _ _ H).
Defined.

End BusSessions.

Section ViewModelSessions.
Import Py ViewModel.

(** X8 at work: handler 1 was added twice, handler 2 once. *)
Lemma RaisePropertyChanged_calls_in_order_session :
  let handle := fun (_ : ref) (_ : option string) => Return tt in
  let self := {| attrs := ∅; property_chaged_handlers := [1; 1; 2] |} in
  Forall (fun h => handle h (Some "x"%string) = Return tt) (property_chaged_handlers self)
  ∧ RaisePropertyChanged handle self (Some "x"%string)
    = (Return tt,
       RaisePropertyChanged_called (Some "x"%string)
       :: ((fun h => handler_called h (Some "x"%string)) <$> property_chaged_handlers self)).
Proof.
  cbn zeta.
  assert (H : Forall (fun h : ref => @Return unit tt = Return tt) [1; 1; 2])
    by (repeat constructor).
  split; [exact H|].
  exact (RaisePropertyChanged_calls_in_order
           (fun _ _ => Return tt)
           {| attrs := ∅; property_chaged_handlers := [1; 1; 2] |}
           (Some "x"%string) H).
Defined.

(** X9 at work: of the handlers 1, 2, 3 the second one raises. *)
Lemma Notifiable_set_handler_raises_session :
  let handle := fun (h : ref) (_ : option string) =>
                  if Nat.eqb h 2 then Raise (Exception_ "boom") else Return tt in
  let d := {| name := Some "x"%string; initial := VStr "" |} in
  let obj := {| attrs := ∅; property_chaged_handlers := [1; 2; 3] |} in
  py_eq (Notifiable_get d obj) (VStr "a") = false
  ∧ property_chaged_handlers obj = [1] ++ 2 :: [3]
  ∧ Forall (fun h' => handle h' (name d) = Return tt) [1]
  ∧ handle 2 (name d) = Raise (Exception_ "boom")
  ∧ ∃ obj',
      Notifiable_set handle d obj (VStr "a")
      = (Raise (Exception_ "boom"), obj',
         RaisePropertyChanged_called (name d)
         :: ((fun h' => handler_called h' (name d)) <$> [1])
         ++ [handler_called 2 (name d)])
      ∧ Notifiable_get d obj' = VStr "a".
Proof.
  cbn zeta.
  split; [reflexivity|]. split; [reflexivity|].
  split; [repeat constructor|]. split; [reflexivity|].
  apply (Notifiable_set_handler_raises
           (fun h _ => if Nat.eqb h 2 then Raise (Exception_ "boom") else Return tt)
           {| name := Some "x"%string; initial := VStr "" |}
           {| attrs := ∅; property_chaged_handlers := [1; 2; 3] |}
           (VStr "a") [1] [3] 2 (Exception_ "boom")).
  - reflexivity.
  - reflexivity.
  - repeat constructor.
  - reflexivity.
Defined.

(** X10 at work: the string a is written twice; the second of the three
    handlers raises at the first write. *)
Lemma Notifiable_set_twice_session :
  let handle := fun (h : ref) (_ : option string) =>
                  if Nat.eqb h 2 then Raise (Exception_ "boom") else Return tt in
  let d := {| name := Some "x"%string; initial := VStr "" |} in
  let obj := {| attrs := ∅; property_chaged_handlers := [1; 2; 3] |} in
  py_ne (VStr "a") (VStr "a") = false
  ∧ fst (fst (Notifiable_set handle d obj (VStr "a"))) = Raise (Exception_ "boom")
  ∧ let obj' := snd (fst (Notifiable_set handle d obj (VStr "a"))) in
    Notifiable_set handle d obj' (VStr "a") = (Return tt, obj', []).
Proof.
  cbn zeta.
  assert (H : py_ne (VStr "a") (VStr "a") = false) by reflexivity.
  split; [exact H|]. split; [reflexivity|].
  exact (Notifiable_set_twice
           (fun h _ => if Nat.eqb h 2 then Raise (Exception_ "boom") else Return tt)
           {| name := Some "x"%string; initial := VStr "" |}
           {| attrs := ∅; property_chaged_handlers := [1; 2; 3] |}
           (VStr "a") H).
Defined.

(** X11 at work: the properties x and y of one instance. *)
Lemma Notifiable_set_other_name_session :
  let handle := fun (_ : ref) (_ : option string) => Return tt in
  let dx := {| name := Some "x"%string; initial := VStr "" |} in
  let dy := {| name := Some "y"%string; initial := VInt 0 |} in
  name dx = Some "x"%string ∧ name dy = Some "y"%string ∧ "x"%string ≠ "y"%string
  ∧ Notifiable_get dy (snd (fst (Notifiable_set handle dx ViewModel_init (VStr "a"))))
    = Notifiable_get dy ViewModel_init.
Proof.
  cbn zeta.
  split; [reflexivity|]. split; [reflexivity|]. split; [discriminate|].
  apply (Notifiable_set_other_name
           (fun _ _ => Return tt)
           {| name := Some "x"%string; initial := VStr "" |}
           {| name := Some "y"%string; initial := VInt 0 |}
           "x" "y" ViewModel_init (VStr "a")).
  - reflexivity.
  - reflexivity.
  - discriminate.
Defined.

(** X12 at work: two descriptors built without a name. *)
Lemma Notifiable_nameless_share_session :
  let handle := fun (_ : ref) (_ : option string) => Return tt in
  let d1 := {| name := None; initial := VStr "" |} in
  let d2 := {| name := None; initial := VInt 0 |} in
  name d1 = None ∧ name d2 = None
  ∧ py_eq (Notifiable_get d1 ViewModel_init) (VStr "a") = false
  ∧ Notifiable_get d2 (snd (fst (Notifiable_set handle d1 ViewModel_init (VStr "a"))))
    = VStr "a".
Proof.
  cbn zeta.
  split; [reflexivity|]. split; [reflexivity|]. split; [reflexivity|].
  apply (Notifiable_nameless_share
           (fun _ _ => Return tt)
           {| name := None; initial := VStr "" |}
           {| name := None; initial := VInt 0 |}
           ViewModel_init (VStr "a")); reflexivity.
Defined.

(** X13 at work: the property x, initially empty, holds a and is
    deleted. *)
Lemma Notifiable_delete_resets_session :
  let handle := fun (_ : ref) (_ : option string) => Return tt in
  let d := {| name := Some "x"%string; initial := VStr "" |} in
  let obj := snd (fst (Notifiable_set handle d ViewModel_init (VStr "a"))) in
  py_eq (initial d) (VStr "a") = false
  ∧ Notifiable_get d (Notifiable_delete d obj) = initial d
  ∧ raised (snd (Notifiable_set handle d (Notifiable_delete d obj) (VStr "a")))
    = [name d].
Proof.
  cbn zeta. split; [reflexivity|].
  destruct (Notifiable_delete_resets
              (fun _ _ => Return tt)
              {| name := Some "x"%string; initial := VStr "" |}
              (snd (fst (Notifiable_set (fun _ _ => Return tt)
                                        {| name := Some "x"%string; initial := VStr "" |}
                                        ViewModel_init (VStr "a"))))
              (VStr "a")) as [H1 H2].
  split; [exact H1|]. apply H2. reflexivity.
Defined.

End ViewModelSessions.

Section MetaSessions.
Import Py Messenger ViewModel Signal Decorator Commands.

(** X15 at work: one unnamed descriptor stored under the keys a and b. *)
Lemma ViewModelMeta_names_members_session :
  let dct := [("a"%string, VRef 0); ("b"%string, VRef 0)] in
  let d := {| ViewModel.name := None; initial := VNone |} in
  let heap : gmap ref object := {[ 0 := ObjNotifiable d ]} in
  Forall (fun item => fst item ≠ ""%string) dct
  ∧ ("b"%string, VRef 0) ∈ dct
  ∧ heap !! 0 = Some (ObjNotifiable d)
  ∧ ∃ n,
      snd (ViewModelMeta_new "C" dct heap) !! 0
      = Some (ObjNotifiable {| ViewModel.name := Some n; initial := initial d |})
      ∧ n ≠ ""%string
      ∧ (unnamed (ViewModel.name d) = false -> ViewModel.name d = Some n)
      ∧ (unnamed (ViewModel.name d) = true -> ∃ key', (key', VRef 0) ∈ dct ∧ n = key').
Proof.
  cbn zeta.
  assert (H1 : Forall (fun item : string * value => fst item ≠ ""%string)
                      [("a"%string, VRef 0); ("b"%string, VRef 0)]).
  { repeat constructor; discriminate. }
  assert (H2 : ("b"%string, VRef 0) ∈ [("a"%string, VRef 0); ("b"%string, VRef 0)]).
  { right. left. }
  assert (H3 : ({[ 0 := ObjNotifiable {| ViewModel.name := None; initial := VNone |} ]}
                : gmap ref object) !! 0
               = Some (ObjNotifiable {| ViewModel.name := None; initial := VNone |})).
  { apply lookup_singleton_eq. }
  split; [exact H1|]. split; [exact H2|]. split; [exact H3|].
  exact (ViewModelMeta_names_members _ H1 "C" _ "b" 0 _ H2 H3).
Defined.

(** X16 at work: a signal built with the name x and found under the key
    changed. *)
Lemma Signal_str_needs_metaclass_session :
  let heap : gmap ref object := {[ 0 := ObjSignal (Signal_init 7 (Some "x"%string)) ]} in
  heap !! 0 = Some (ObjSignal (Signal_init 7 (Some "x"%string)))
  ∧ Signal_str (Signal_init 7 (Some "x"%string)) = Raise AttributeError
  ∧ ∃ sg, name_member "changed" (VRef 0) heap !! 0 = Some (ObjSignal sg)
          ∧ sig_id sg = 7
          ∧ Signal_str sg = Return ("signal " +:+ "changed").
Proof.
  cbn zeta.
  assert (H : ({[ 0 := ObjSignal (Signal_init 7 (Some "x"%string)) ]}
               : gmap ref object) !! 0
              = Some (ObjSignal (Signal_init 7 (Some "x"%string)))).
  { apply lookup_singleton_eq. }
  destruct (Signal_str_needs_metaclass 7 (Some "x"%string) "changed" 0
              {[ 0 := ObjSignal (Signal_init 7 (Some "x"%string)) ]}) as [H1 H2].
  split; [exact H|]. split; [exact H1|]. exact (H2 H).
Defined.

(** X17 at work: the getter reads the attribute _foo, which the setter
    writes. *)
Lemma notifiable_first_assignment_session :
  let getter := fun slf : Instance =>
                  match attrs slf !! "_foo"%string with
                  | Some v => Return v
                  | None => Raise AttributeError
                  end in
  let setter := fun (slf : Instance) (v : value) =>
                  (Return tt,
                   {| attrs := <["_foo"%string := v]> (attrs slf);
                      property_chaged_handlers := property_chaged_handlers slf |}) in
  let handle := fun (_ : ref) (_ : option string) => Return tt in
  getter ViewModel_init = Raise AttributeError
  ∧ py_eq VNone (VInt 1) = false
  ∧ newsetter getter setter "foo" handle ViewModel_init VNone
    = (Return tt, ViewModel_init, [])
  ∧ snd (fst (newsetter getter setter "foo" handle ViewModel_init (VInt 1)))
    = snd (setter ViewModel_init (VInt 1))
  ∧ raised (snd (newsetter getter setter "foo" handle ViewModel_init (VInt 1)))
    = [Some "foo"%string].
Proof.
  intros getter setter handle.
  assert (Hg : getter ViewModel_init = Raise AttributeError).
  { subst getter. cbn. rewrite lookup_empty. reflexivity. }
  split; [exact Hg|]. split; [reflexivity|].
  destruct (notifiable_first_assignment getter setter "foo" handle
                                        ViewModel_init Hg) as [H1 H2].
  split; [exact H1|].
  exact (H2 (VInt 1) _ eq_refl eq_refl).
Defined.

(** X19 at work: handler 1 on a command without handlers. *)
Lemma remove_CanExecuteChanged_undoes_add_session :
  let cmd := Command_init {| p_func := 7; p_arg := Some 1 |} None in
  (1 ∉ _can_execute_changed_handlers cmd)
  ∧ remove_CanExecuteChanged 1 cmd = (Raise ValueError, cmd)
  ∧ remove_CanExecuteChanged 1 (snd (add_CanExecuteChanged 1 cmd)) = (Return tt, cmd).
Proof.
  cbn zeta.
  assert (H : 1 ∉ _can_execute_changed_handlers
                    (Command_init {| p_func := 7; p_arg := Some 1 |} None))
    by apply not_elem_of_nil.
  split; [exact H|].
  exact (remove_CanExecuteChanged_undoes_add 1 _ H).
Defined.

(** X21 at work: the index -1 on a collection of one item. *)
Lemma pop_out_of_range_session :
  (-1 < 0 ∨ Count [VInt 1] <= -1)%Z
  ∧ pop (Some (-1)%Z) [VInt 1]
    = (Raise (Exception_ "ArgumentOutOfRangeException"), [VInt 1])
  ∧ pop None [] = (Raise (Exception_ "ArgumentOutOfRangeException"), []).
Proof.
  assert (H : (-1 < 0 ∨ Count [VInt 1] <= -1)%Z) by (left; reflexivity).
  split; [exact H|].
  exact (pop_out_of_range [VInt 1] (-1)%Z H).
Defined.

(** X22 at work: 2 is added to the collection that holds 1. *)
Lemma List_getitem_after_Add_session :
  let self' := snd (Add (VInt 2) [VInt 1]) in
  ([VInt 1] : List) !! 0 = Some (VInt 1)
  ∧ List_getitem (Count [VInt 1]) self' = Return (VInt 2)
  ∧ List_getitem (-1) self' = Return (VInt 2)
  ∧ List_getitem (Z.of_nat 0) self' = Return (VInt 1).
Proof.
  cbn zeta.
  destruct (List_getitem_after_Add [VInt 1] (VInt 2)) as (H1 & H2 & H3).
  split; [reflexivity|]. split; [exact H1|]. split; [exact H2|].
  exact (H3 0 (VInt 1) eq_refl).
Defined.

End MetaSessions.

Section KeypadSessions.
Import Py Builtins Calc.

(** X23 at work: a digit, a letter, an unknown operator, more digits. *)
Lemma inputText_is_always_a_number_session :
  let ks := [Digit "5"; Digit "a"; Operator "%"; Digit "7"; Operator "+"; Digit "."] in
  (inputText initial = ""%string
   ∨ ∃ x, float_of_str (inputText initial) = Return x)
  ∧ let s' := snd (press_each ks initial) in
    inputText s' = ""%string ∨ ∃ x, float_of_str (inputText s') = Return x.
Proof.
  cbn zeta.
  assert (H : inputText initial = ""%string
              ∨ ∃ x, float_of_str (inputText initial) = Return x)
    by (left; reflexivity).
  split; [exact H|].
  exact (inputText_is_always_a_number _ initial H).
Defined.

(** X25 at work: the key C. *)
Lemma C_clears_input_only_session :
  let s := snd (press_all [Digit "5"; Operator "+"; Digit "3"] initial) in
  contains_C "C" = true
  ∧ String.eqb "AC" "C" = false
  ∧ ∃ s', operatorCommand "C" s = (Return tt, s')
          ∧ inputText s' = ""%string
          ∧ outputText s' = outputText s
          ∧ outputNumber s' = outputNumber s
          ∧ prevOperator s' = prevOperator s.
Proof.
  cbn zeta. split; [reflexivity|]. split; [reflexivity|].
  exact (C_clears_input_only "C" _ eq_refl eq_refl).
Defined.

(** X26 at work: plus, then minus, in the initial state. *)
Lemma last_operator_wins_session :
  inputText initial = ""%string
  ∧ contains_C "+" = false ∧ String.eqb "AC" "+" = false
  ∧ contains_C "-" = false ∧ String.eqb "AC" "-" = false
  ∧ press_all [Operator "+"; Operator "-"] initial
    = (Return tt, set_prevOperator "-" initial).
Proof.
  repeat (split; [reflexivity|]).
  exact (last_operator_wins "+" "-" initial eq_refl eq_refl eq_refl eq_refl eq_refl).
Defined.

(** X27 at work: 8 / 0 and then the key plus. *)
Lemma divide_by_zero_keeps_division_pending_session :
  let s := snd (press_all [Digit "8"; Operator "/"; Digit "0"] initial) in
  contains_C "+" = false ∧ String.eqb "AC" "+" = false
  ∧ inputText s ≠ ""%string
  ∧ prevOperator s = "/"%string
  ∧ float_of_str (inputText s) = Return (FFin false 0 0)
  ∧ float_is_zero (FFin false 0 0) = true
  ∧ ∃ s', operatorCommand "+" s = (Return tt, s')
          ∧ inputText s' = ""%string ∧ outputText s' = VStr ""
          ∧ outputNumber s' = outputNumber s
          ∧ prevOperator s' = "/"%string.
Proof.
  cbn zeta.
  assert (H3 : inputText (snd (press_all [Digit "8"; Operator "/"; Digit "0"] initial))
               ≠ ""%string) by (vm_compute; discriminate).
  split; [reflexivity|]. split; [reflexivity|]. split; [exact H3|].
  split; [reflexivity|]. split; [reflexivity|]. split; [reflexivity|].
  exact (divide_by_zero_keeps_division_pending "+" (FFin false 0 0) _
           eq_refl eq_refl H3 eq_refl eq_refl eq_refl).
Defined.

(** X28 at work: the keys 5, +, 3, =. *)
Lemma outputText_is_a_string_session :
  let ks := [Digit "5"; Operator "+"; Digit "3"; Operator "="] in
  (∃ t, outputText initial = VStr t)
  ∧ press_all ks initial = (Return tt, snd (press_all ks initial))
  ∧ ∃ t, outputText (snd (press_all ks initial)) = VStr t.
Proof.
  cbn zeta.
  assert (H1 : ∃ t, outputText initial = VStr t) by (exists ""%string; reflexivity).
  assert (H2 : press_all [Digit "5"; Operator "+"; Digit "3"; Operator "="] initial
               = (Return tt,
                  snd (press_all [Digit "5"; Operator "+"; Digit "3"; Operator "="]
                                 initial)))
    by (vm_compute; reflexivity).
  split; [exact H1|]. split; [exact H2|].
  exact (outputText_is_a_string _ initial _ H1 H2).
Defined.

End KeypadSessions.
